(** * logs_to_chatml: from Werewolf game logs to ChatML examples

    A shallow embedding of [logs_to_chatml.py]: the conversation formatter
    [format_conversation], the format-tolerant loader [load_games] and the
    example extractor inside [process_logs], followed by the properties of
    the specification that hold of them and the places where they do not.

    Python text is a sequence of Unicode code points; exceptions are values
    of a result type; the two accumulator lists of [process_logs] are an
    explicit state that survives an exception, as the lists do in Python.
    The decoder and the file system are parameters that return a value or
    raise any exception, so that what the loader catches and what it lets
    through is part of the model; memory is not. *)

From Stdlib Require Import String Ascii NArith ZArith DecimalString Bool List Lia.
Import ListNotations.

Set Implicit Arguments.

(** ** Python text *)

Module Py.

(** A character is its code point, a [str] the list of its characters. *)
Definition char := N.
Definition str := list char.

(** The text of an ASCII literal. *)
Definition lit (s : string) : str :=
  map N_of_ascii (list_ascii_of_string s).

Arguments lit s : simpl never.

Definition LF : char := 10%N.
Definition QUOTE : char := 34%N.

(** [txt s] is the literal [s] with every apostrophe standing for a double
    quote and every vertical bar for a line feed, to write texts that hold
    them legibly. *)
Definition txt (s : string) : str :=
  map (fun c => if N.eqb c 39 then QUOTE else if N.eqb c 124 then LF else c)
      (lit s).

Fixpoint str_eqb (a b : str) : bool :=
  match a, b with
  | [], [] => true
  | x :: a', y :: b' => N.eqb x y && str_eqb a' b'
  | _, _ => false
  end.

(** [str.startswith] and [str.endswith]. *)
Fixpoint startswith (s prefix : str) : bool :=
  match prefix, s with
  | [], _ => true
  | p :: prefix', c :: s' => N.eqb c p && startswith s' prefix'
  | _ :: _, [] => false
  end.

Definition endswith (s suffix : str) : bool :=
  startswith (rev s) (rev suffix).

(** [needle in hay] for two strings: [needle] occurs at some position. *)
Fixpoint contains (hay needle : str) : bool :=
  startswith hay needle ||
  match hay with
  | [] => false
  | _ :: hay' => contains hay' needle
  end.

(** The characters [str.strip] removes: those for which [str.isspace]
    holds. *)
Definition isspace (c : char) : bool :=
  ((9 <=? c) && (c <=? 13) || (28 <=? c) && (c <=? 32)
   || (c =? 133) || (c =? 160) || (c =? 5760)
   || (8192 <=? c) && (c <=? 8202)
   || (c =? 8232) || (c =? 8233) || (c =? 8239) || (c =? 8287)
   || (c =? 12288))%N.

Fixpoint lstrip (s : str) : str :=
  match s with
  | c :: s' => if isspace c then lstrip s' else s
  | [] => []
  end.

Definition rstrip (s : str) : str := rev (lstrip (rev s)).

Definition strip (s : str) : str := rstrip (lstrip s).

(** The line boundaries of [str.splitlines]; a carriage return followed by
    a line feed is one boundary. *)
Definition is_linebreak (c : char) : bool :=
  ((10 <=? c) && (c <=? 13) || (28 <=? c) && (c <=? 30)
   || (c =? 133) || (c =? 8232) || (c =? 8233))%N.

(** [splitlines_from cur s]: the lines of [s], the characters of the line
    being read kept reversed in [cur].  A last line without a boundary is
    kept only when it is not empty. *)
Fixpoint splitlines_from (cur : str) (s : str) : list str :=
  match s with
  | [] => match cur with [] => [] | _ => [rev cur] end
  | c :: s' =>
      if is_linebreak c then
        match s' with
        | d :: s'' =>
            if (N.eqb c 13 && N.eqb d 10)%bool
            then rev cur :: splitlines_from [] s''
            else rev cur :: splitlines_from [] s'
        | [] => rev cur :: splitlines_from [] s'
        end
      else splitlines_from (c :: cur) s'
  end.

Definition splitlines (s : str) : list str := splitlines_from [] s.

(** ** Python values

    The values [json.loads] builds.  A [dict] is the list of its items in
    insertion order, with pairwise distinct keys. *)

(** A float is kept as the decimal it was read from: [FDec neg m e] is the
    double nearest to [m * 10^e], negated when [neg].  The program never
    compares or computes with floats; it only tests them for zero. *)
Inductive float_value : Type :=
| FNaN
| FInf (neg : bool)
| FDec (neg : bool) (m : N) (e : Z).

#[local] Unset Elimination Schemes.
Inductive value : Type :=
| PyNone
| PyBool (b : bool)
| PyInt (n : Z)
| PyFloat (f : float_value)
| PyStr (s : str)
| PyList (l : list value)
| PyDict (d : list (str * value)).
#[local] Set Elimination Schemes.

Definition dict := list (str * value).

Fixpoint dict_lookup (d : dict) (k : str) : option value :=
  match d with
  | [] => None
  | (k', v) :: d' => if str_eqb k' k then Some v else dict_lookup d' k
  end.

(** [d[k] = v]: a key already there keeps its place. *)
Fixpoint dict_set (d : dict) (k : str) (v : value) : dict :=
  match d with
  | [] => [(k, v)]
  | (k', v') :: d' =>
      if str_eqb k' k then (k', v) :: d' else (k', v') :: dict_set d' k v
  end.

Definition isinstance_dict (v : value) : bool :=
  match v with PyDict _ => true | _ => false end.

(** A decimal that rounds to zero as a double: it is at most [2^-1075],
    half the least positive double. *)
Definition float_is_zero (f : float_value) : bool :=
  match f with
  | FNaN | FInf _ => false
  | FDec _ m e =>
      (m =? 0)%N ||
      match e with
      | Zneg p => (m * 2 ^ 1075 <=? 10 ^ Npos p)%N
      | _ => false
      end
  end.

(** Truth value testing, as [if v] and [v and w] do it. *)
Definition truthy (v : value) : bool :=
  match v with
  | PyNone => false
  | PyBool b => b
  | PyInt n => negb (n =? 0)%Z
  | PyFloat f => negb (float_is_zero f)
  | PyStr s => match s with [] => false | _ => true end
  | PyList l => match l with [] => false | _ => true end
  | PyDict d => match d with [] => false | _ => true end
  end.

(** ** Exceptions *)

Inductive exn : Type :=
| OSError
| UnicodeDecodeError
| JSONDecodeError
| RecursionError
| AttributeError
| TypeError
| ValueError
| KeyError.

(** [except json.JSONDecodeError] catches that exception only: of the
    others above none is a subclass of it. *)
Definition is_JSONDecodeError (e : exn) : bool :=
  match e with JSONDecodeError => true | _ => false end.

Inductive result (A : Type) : Type :=
| Ok (a : A)
| Raise (e : exn).
Arguments Raise {A} e.

(** [d.get(k, default)], and [v.get(k, default)] for any value [v]: only a
    [dict] has the method. *)
Definition dict_get (d : dict) (k : str) (default : value) : value :=
  match dict_lookup d k with
  | Some x => x
  | None => default
  end.

Definition get (v : value) (k : str) (default : value) : result value :=
  match v with
  | PyDict d => Ok (dict_get d k default)
  | _ => Raise AttributeError
  end.

(** [v[k]] for a string key [k]. *)
Definition getitem (v : value) (k : str) : result value :=
  match v with
  | PyDict d =>
      match dict_lookup d k with Some x => Ok x | None => Raise KeyError end
  | _ => Raise TypeError
  end.

(** The items a [for] loop or an unpacking draws from [v]: the elements of
    a list, the characters of a string, the keys of a dict. *)
Definition iter (v : value) : result (list value) :=
  match v with
  | PyList l => Ok l
  | PyStr s => Ok (map (fun c => PyStr [c]) s)
  | PyDict d => Ok (map (fun kv => PyStr (fst kv)) d)
  | _ => Raise TypeError
  end.

(** [a, b = v]. *)
Definition unpack2 (v : value) : result (value * value) :=
  match iter v with
  | Ok [a; b] => Ok (a, b)
  | Ok _ => Raise ValueError
  | Raise e => Raise e
  end.

Definition is_str (s : str) (v : value) : bool :=
  match v with PyStr t => str_eqb t s | _ => false end.

(** [s in v] for a string [s]: a substring of a string, an element of a
    list, a key of a dict. *)
Definition str_in (s : str) (v : value) : result bool :=
  match v with
  | PyStr t => Ok (contains t s)
  | PyList l => Ok (existsb (is_str s) l)
  | PyDict d => Ok (existsb (fun kv => str_eqb (fst kv) s) d)
  | _ => Raise TypeError
  end.

End Py.

(** ** The JSON decoder

    [json.loads] of the standard library, as its scanner reads a text.  It
    raises [JSONDecodeError] on a text that is not JSON and [ValueError] on
    an integer of more digits than [int] converts.  Its nesting is bounded
    by the length of the text and not by the recursion limit of the
    interpreter, which depends on the call stack.  The loader below is
    verified against any decoder, whatever it raises, [RecursionError]
    included; this one runs it on concrete files. *)

Module Json.
Import Py.

Definition is_ws (c : char) : bool :=
  ((c =? 32) || (c =? 9) || (c =? 10) || (c =? 13))%N.

Fixpoint skip_ws (s : str) : str :=
  match s with
  | c :: s' => if is_ws c then skip_ws s' else s
  | [] => []
  end.

Definition is_digit (c : char) : bool := ((48 <=? c) && (c <=? 57))%N.

Definition hexval (c : char) : option N :=
  if is_digit c then Some (c - 48)%N
  else if ((97 <=? c) && (c <=? 102))%N then Some (c - 87)%N
  else if ((65 <=? c) && (c <=? 70))%N then Some (c - 55)%N
  else None.

Definition hex4 (a b c d : char) : option N :=
  match hexval a, hexval b, hexval c, hexval d with
  | Some x, Some y, Some z, Some w =>
      Some (((x * 16 + y) * 16 + z) * 16 + w)%N
  | _, _, _, _ => None
  end.

Definition is_high_surrogate (u : N) : bool :=
  ((55296 <=? u) && (u <=? 56319))%N.
Definition is_low_surrogate (u : N) : bool :=
  ((56320 <=? u) && (u <=? 57343))%N.
Definition join_surrogates (hi lo : N) : N :=
  (65536 + ((hi - 55296) * 1024 + (lo - 56320)))%N.

(** The character a one-letter escape stands for. *)
Definition simple_escape (c : char) : option char :=
  if (c =? 34)%N then Some 34%N
  else if (c =? 92)%N then Some 92%N
  else if (c =? 47)%N then Some 47%N
  else if (c =? 98)%N then Some 8%N
  else if (c =? 102)%N then Some 12%N
  else if (c =? 110)%N then Some 10%N
  else if (c =? 114)%N then Some 13%N
  else if (c =? 116)%N then Some 9%N
  else None.

(** [scanstring s acc]: the string whose opening quote was just read, its
    characters so far kept reversed in [acc]; strict mode, in which a raw
    control character is an error. *)
Fixpoint scanstring (s : str) (acc : str) : option (str * str) :=
  match s with
  | [] => None
  | c :: t =>
      if (c =? 34)%N then Some (rev acc, t)
      else if (c =? 92)%N then
        match t with
        | [] => None
        | e :: t1 =>
            if (e =? 117)%N then
              match t1 with
              | h1 :: h2 :: h3 :: h4 :: t2 =>
                  match hex4 h1 h2 h3 h4 with
                  | None => None
                  | Some u =>
                      if is_high_surrogate u then
                        match t2 with
                        | b :: u' :: k1 :: k2 :: k3 :: k4 :: t3 =>
                            if ((b =? 92) && (u' =? 117))%N then
                              match hex4 k1 k2 k3 k4 with
                              | None => None
                              | Some lo =>
                                  if is_low_surrogate lo
                                  then scanstring t3
                                         (join_surrogates u lo :: acc)
                                  else scanstring t2 (u :: acc)
                              end
                            else scanstring t2 (u :: acc)
                        | _ => scanstring t2 (u :: acc)
                        end
                      else scanstring t2 (u :: acc)
                  end
              | _ => None
              end
            else
              match simple_escape e with
              | Some x => scanstring t1 (x :: acc)
              | None => None
              end
        end
      else if (c <=? 31)%N then None
      else scanstring t (c :: acc)
  end.

(** The longest run of digits at the head of [s], and the rest. *)
Fixpoint span_digits (s : str) : str * str :=
  match s with
  | c :: s' =>
      if is_digit c
      then let '(ds, rest) := span_digits s' in (c :: ds, rest)
      else ([], s)
  | [] => ([], [])
  end.

Definition digits_value (ds : str) : N :=
  fold_left (fun n c => (n * 10 + (c - 48))%N) ds 0%N.

(** The integer part of a number: [0], or a digit from 1 to 9 and more
    digits. *)
Definition match_int (s : str) : option (str * str) :=
  match s with
  | c :: s' =>
      if (c =? 48)%N then Some ([c], s')
      else if is_digit c
      then let '(ds, rest) := span_digits s' in Some (c :: ds, rest)
      else None
  | [] => None
  end.

(** A fraction: a point and at least one digit. *)
Definition match_frac (s : str) : option (str * str) :=
  match s with
  | c :: s' =>
      if (c =? 46)%N then
        match span_digits s' with
        | ([], _) => None
        | (ds, rest) => Some (ds, rest)
        end
      else None
  | [] => None
  end.

(** An exponent: [e] or [E], an optional sign and at least one digit. *)
Definition match_exp (s : str) : option (Z * str) :=
  match s with
  | c :: s' =>
      if ((c =? 101) || (c =? 69))%N then
        let '(neg, s'') :=
          match s' with
          | g :: r =>
              if (g =? 45)%N then (true, r)
              else if (g =? 43)%N then (false, r)
              else (false, s')
          | [] => (false, s')
          end in
        match span_digits s'' with
        | ([], _) => None
        | (ds, rest) =>
            let x := Z.of_N (digits_value ds) in
            Some (if neg then (- x)%Z else x, rest)
        end
      else None
  | [] => None
  end.

(** The most digits [int] converts from a text, [sys.int_max_str_digits]
    as the interpreter starts with it. *)
Definition int_max_str_digits : N := 4300.

(** A number: an [int] when it has neither fraction nor exponent, a
    [float] otherwise.  The integer is converted by [int], which refuses a
    text of too many digits. *)
Definition match_number (s : str) : result (value * str) :=
  let '(neg, s1) :=
    match s with
    | c :: s' => if (c =? 45)%N then (true, s') else (false, s)
    | [] => (false, s)
    end in
  match match_int s1 with
  | None => Raise JSONDecodeError
  | Some (ip, s2) =>
      let '(fp, s3) :=
        match match_frac s2 with
        | Some (ds, rest) => (Some ds, rest)
        | None => (None, s2)
        end in
      let '(ep, s4) :=
        match match_exp s3 with
        | Some (x, rest) => (Some x, rest)
        | None => (None, s3)
        end in
      match fp, ep with
      | None, None =>
          if (int_max_str_digits <? N.of_nat (length ip))%N
          then Raise ValueError
          else
            let n := Z.of_N (digits_value ip) in
            Ok (PyInt (if neg then (- n)%Z else n), s4)
      | _, _ =>
          let fd := match fp with Some ds => ds | None => [] end in
          let x := match ep with Some x => x | None => 0%Z end in
          Ok (PyFloat (FDec neg (digits_value (ip ++ fd))
                            (x - Z.of_nat (length fd))),
              s4)
      end
  end.

(** [s] with the prefix [w] removed. *)
Fixpoint after (w s : str) : option str :=
  match w, s with
  | [], _ => Some s
  | x :: w', c :: s' => if (c =? x)%N then after w' s' else None
  | _ :: _, [] => None
  end.

(** The constants, then the numbers. *)
Definition scan_atom (s : str) : result (value * str) :=
  match after (lit "null") s with
  | Some r => Ok (PyNone, r)
  | None =>
  match after (lit "true") s with
  | Some r => Ok (PyBool true, r)
  | None =>
  match after (lit "false") s with
  | Some r => Ok (PyBool false, r)
  | None =>
  match after (lit "NaN") s with
  | Some r => Ok (PyFloat FNaN, r)
  | None =>
  match after (lit "Infinity") s with
  | Some r => Ok (PyFloat (FInf false), r)
  | None =>
  match after (lit "-Infinity") s with
  | Some r => Ok (PyFloat (FInf true), r)
  | None => match_number s
  end end end end end end.

(** [scan_once fuel s] reads one value at the head of [s];
    [parse_array fuel s acc] and [parse_object fuel s acc] read the items
    that follow the ones in [acc], [s] standing at the start of an item.
    An array on [s] needs at most [2 * length s + 1] nested calls and a
    value one less, which bounds the fuel.  An exception raised while an
    item is read ends the reading. *)
Fixpoint scan_once (fuel : nat) (s : str) : result (value * str) :=
  match fuel with
  | O => Raise RecursionError
  | S fuel' =>
      match s with
      | [] => Raise JSONDecodeError
      | c :: t =>
          if (c =? 34)%N then
            match scanstring t [] with
            | Some (x, rest) => Ok (PyStr x, rest)
            | None => Raise JSONDecodeError
            end
          else if (c =? 123)%N then
            match skip_ws t with
            | c' :: t' =>
                if (c' =? 125)%N then Ok (PyDict [], t')
                else parse_object fuel' (c' :: t') []
            | [] => Raise JSONDecodeError
            end
          else if (c =? 91)%N then
            match skip_ws t with
            | c' :: t' =>
                if (c' =? 93)%N then Ok (PyList [], t')
                else parse_array fuel' (c' :: t') []
            | [] => Raise JSONDecodeError
            end
          else scan_atom s
      end
  end

with parse_array (fuel : nat) (s : str) (acc : list value)
  : result (value * str) :=
  match fuel with
  | O => Raise RecursionError
  | S fuel' =>
      match scan_once fuel' s with
      | Raise e => Raise e
      | Ok (v, rest) =>
          match skip_ws rest with
          | c :: t =>
              if (c =? 93)%N then Ok (PyList (rev (v :: acc)), t)
              else if (c =? 44)%N
              then parse_array fuel' (skip_ws t) (v :: acc)
              else Raise JSONDecodeError
          | [] => Raise JSONDecodeError
          end
      end
  end

with parse_object (fuel : nat) (s : str) (acc : dict)
  : result (value * str) :=
  match fuel with
  | O => Raise RecursionError
  | S fuel' =>
      match s with
      | q :: s1 =>
          if (q =? 34)%N then
            match scanstring s1 [] with
            | None => Raise JSONDecodeError
            | Some (key, s2) =>
                match skip_ws s2 with
                | colon :: s3 =>
                    if (colon =? 58)%N then
                      match scan_once fuel' (skip_ws s3) with
                      | Raise e => Raise e
                      | Ok (v, rest) =>
                          let acc' := dict_set acc key v in
                          match skip_ws rest with
                          | c :: t =>
                              if (c =? 125)%N then Ok (PyDict acc', t)
                              else if (c =? 44)%N
                              then parse_object fuel' (skip_ws t) acc'
                              else Raise JSONDecodeError
                          | [] => Raise JSONDecodeError
                          end
                      end
                    else Raise JSONDecodeError
                | [] => Raise JSONDecodeError
                end
            end
          else Raise JSONDecodeError
      | [] => Raise JSONDecodeError
      end
  end.

(** [json.loads s]: one value, with whitespace around it and nothing
    else. *)
Definition loads (s : str) : result value :=
  match scan_once (2 * length s + 2) (skip_ws s) with
  | Ok (v, rest) =>
      match skip_ws rest with
      | [] => Ok v
      | _ :: _ => Raise JSONDecodeError
      end
  | Raise e => Raise e
  end.

End Json.
(** ** The program *)

Import Py.

(** An example is the dict [{"text": text}]. *)
Record example : Type := Example { text : str }.

(** The two lists [process_logs] appends to. *)
Record accs : Type := Accs {
  werewolf_examples : list example;
  villager_examples : list example
}.

(** Statements run on the two lists and end normally or by an exception. *)
Definition M (A : Type) : Type := accs -> accs * result A.

Definition ret {A} (a : A) : M A := fun st => (st, Ok a).

Definition bind {A B} (m : M A) (k : A -> M B) : M B :=
  fun st =>
    match m st with
    | (st', Ok a) => k a st'
    | (st', Raise e) => (st', Raise e)
    end.

Definition lift {A} (r : result A) : M A := fun st => (st, r).

Notation "x <- m ;; k" := (bind m (fun x => k))
  (at level 61, m at next level, right associativity).
Notation "m ;;; k" := (bind m (fun _ => k))
  (at level 61, right associativity).

Definition append_werewolf (ex : example) : M unit :=
  fun st => (Accs (werewolf_examples st ++ [ex]) (villager_examples st),
             Ok tt).

Definition append_villager (ex : example) : M unit :=
  fun st => (Accs (werewolf_examples st) (villager_examples st ++ [ex]),
             Ok tt).

(** [for x in l: body x]. *)
Fixpoint for_each {A} (body : A -> M unit) (l : list A) : M unit :=
  match l with
  | [] => ret tt
  | x :: l' => body x ;;; for_each body l'
  end.

(** [str.lower] on ASCII text, to run the program on sample directories. *)
Definition ascii_lower (s : str) : str :=
  map (fun c => if ((65 <=? c) && (c <=? 90))%N then (c + 32)%N else c) s.

(** ** Sample data, to run the program *)

Module Samples.

(** [str(v)] for [None], the booleans and the integers; the samples insert
    no other value that is not a string. *)
Definition str_of_atom (v : value) : str :=
  match v with
  | PyNone => lit "None"
  | PyBool true => lit "True"
  | PyBool false => lit "False"
  | PyInt n => lit (NilEmpty.string_of_int (Z.to_int n))
  | _ => []
  end.

(** A file system that holds one file; opening another path raises
    [FileNotFoundError], an [OSError]. *)
Definition one_file (path content p : str) : result str :=
  if str_eqb p path then Ok content else Raise OSError.

(** A truncated array: the last game is missing after the comma. *)
Definition broken_array : str := txt "[{'eliminate': {}},]".

(** An array with elements that are not mappings. *)
Definition mixed_array : str := txt "[1, 'x', {'bid': []}]".

(** A JSONL file: two games, a blank line, a malformed line and a line
    that holds a number. *)
Definition jsonl_file : str :=
  txt "{'id': 1}||{'id': |  {'id': 2}  |42|".

(** The records of the testable properties. *)
Definition eliminate_record (P R : str) : value :=
  PyDict [(lit "eliminate",
           PyDict [(lit "prompt", PyStr P); (lit "raw_resp", PyStr R)])].

Definition eliminate_record_no_resp (P : str) : value :=
  PyDict [(lit "eliminate", PyDict [(lit "prompt", PyStr P)])].

Definition bid_record (name entry : value) : value :=
  PyDict [(lit "bid", PyList [PyList [PyList [name; entry]]])].

Definition bid_entry (P R : str) : value :=
  PyDict [(lit "prompt", PyStr P); (lit "raw_resp", PyStr R)].

(** A game whose eliminate prompt is the number 5. *)
Definition number_prompt_record : value :=
  PyDict [(lit "eliminate",
           PyDict [(lit "prompt", PyInt 5); (lit "raw_resp", PyStr (lit "R"))])].

(** Two games with bids over several rounds. *)
Definition two_games : list value :=
  [ PyDict [(lit "eliminate",
             PyDict [(lit "prompt", PyStr (lit "p1"));
                     (lit "raw_resp", PyStr (lit "r1"))]);
            (lit "bid",
             PyList [PyList [PyList [PyStr (lit "Ann");
                                     bid_entry (lit "the Villager a") (lit "1")];
                             PyList [PyStr (lit "Bob");
                                     bid_entry (lit "the Werewolf") (lit "2")]];
                     PyList [PyList [PyStr (lit "Cy");
                                     bid_entry (lit "b the Villager") (lit "3")]]])];
    PyInt 7;
    PyDict [(lit "bid",
             PyList [PyList [];
                     PyList [PyList [PyStr (lit "Di");
                                     bid_entry (lit "the Villager c") (lit "4")]]]);
            (lit "eliminate",
             PyDict [(lit "prompt", PyStr (lit "p2"));
                     (lit "raw_resp", PyStr (lit "r2"))])] ].

(** A JSONL file whose first line opens with a bracket and whose last
    line closes with one: a game between two lines that hold arrays. *)
Definition bracketed_jsonl : str := txt "[1]|{'id': 1}|[2]".

Definition bracketed_jsonl_tagged : list (str * option dict) :=
  [ (txt "[1]", None);
    (txt "{'id': 1}", Some [(lit "id", PyInt 1)]);
    (txt "[2]", None) ].

(** Two malformed lines, the second with an integer of 4301 digits, one
    more than [int] converts. *)
Definition long_integer_file : str :=
  txt "[1|, " ++ repeat 49%N 4301.

(** The lines of [jsonl_file], each with its kind. *)
Definition jsonl_tagged : list (str * option dict) :=
  [ (txt "{'id': 1}", Some [(lit "id", PyInt 1)]);
    ([], None);
    (txt "{'id': ", None);
    (txt "  {'id': 2}  ", Some [(lit "id", PyInt 2)]);
    (lit "42", None) ].

(** A file of spaces, a line feed and a tab. *)
Definition blank_file : str := [32; 10; 9; 32]%N.

(** The examples of [two_games]. *)
Definition two_games_werewolf : list example :=
  [ Example (txt "<im_start>user|p1<im_end>|<im_start>assistant|r1<im_end>");
    Example (txt "<im_start>user|p2<im_end>|<im_start>assistant|r2<im_end>") ].

Definition two_games_villager : list example :=
  [ Example (txt "<im_start>user|the Villager a<im_end>|<im_start>assistant|1<im_end>");
    Example (txt "<im_start>user|b the Villager<im_end>|<im_start>assistant|3<im_end>");
    Example (txt "<im_start>user|the Villager c<im_end>|<im_start>assistant|4<im_end>") ].

(** The example made from [number_prompt_record]. *)
Definition number_prompt_example : example :=
  Example (txt "<im_start>user|5<im_end>|<im_start>assistant|R<im_end>").

(** A directory with an array of two games, a file that is not a log and a
    JSONL file under an upper-case suffix. *)
Definition logs_listing (dir : str) : result (list str) :=
  if str_eqb dir (lit "logs")
  then Ok [lit "a.json"; lit "notes.txt"; lit "b.JSON"]
  else Raise OSError.

Definition logs_join (dir fn : str) : str := dir ++ lit "/" ++ fn.

Definition logs_files (p : str) : result str :=
  if str_eqb p (lit "logs/a.json") then
    Ok (txt "[{'eliminate': {'prompt': 'P', 'raw_resp': 'R'}}, {'bid': [[['Alice', {'prompt': 'ask the Villager X', 'raw_resp': 'Y'}]]]}]")
  else if str_eqb p (lit "logs/notes.txt") then
    Ok (txt "{'eliminate': {'prompt': 'no', 'raw_resp': 'no'}}")
  else if str_eqb p (lit "logs/b.JSON") then
    Ok (txt "{'eliminate': {'prompt': 'Q', 'raw_resp': 'S'}}|not json|")
  else Raise OSError.

(** [logs_files] without the file that is not a log. *)
Definition logs_files_only (p : str) : result str :=
  if str_eqb p (lit "logs/notes.txt") then Raise OSError else logs_files p.

(** A game whose bid is not a sequence, and games of the data model with
    fields of other types under [eliminate]. *)
Definition null_bid_record : value := PyDict [(lit "bid", PyNone)].

Definition odd_eliminate_games : list value :=
  [ PyDict [(lit "eliminate", PyStr (lit "x"))];
    PyDict [(lit "eliminate", PyDict [(lit "prompt", PyInt 0);
                                      (lit "raw_resp", PyStr (lit "r"))])];
    PyList [];
    eliminate_record (lit "p") (lit "r") ].

End Samples.

Import Samples.

Section LogsToChatml.

(** [json.loads]: the value decoded, or the exception raised, which is
    [JSONDecodeError] for a text that is not JSON and another one when a
    limit of the interpreter is met ([ValueError] for an integer of too
    many digits, [RecursionError] for too deep a nesting). *)
Variable json_loads : str -> result value.

(** [str(v)] for a value that is not a string, as an f-string inserts it. *)
Variable py_str : value -> str.

(** The text [open(path, "r").read()] returns, or the exception raised:
    [OSError] when the file cannot be opened or read, [UnicodeDecodeError]
    when its bytes are not text. *)
Variable read_text : str -> result str.

(** [os.listdir], [os.path.join] and [str.lower]. *)
Variable listdir : str -> result (list str).
Variable path_join : str -> str -> str.
Variable str_lower : str -> str.

(** [f"{v}"]. *)
Definition fstring (v : value) : str :=
  match v with
  | PyStr s => s
  | _ => py_str v
  end.

Definition format_conversation (prompt response : value) : str :=
  (lit "<im_start>user" ++ [LF])
  ++ fstring prompt
  ++ (lit "<im_end>" ++ [LF])
  ++ (lit "<im_start>assistant" ++ [LF])
  ++ fstring response
  ++ lit "<im_end>".

Arguments format_conversation prompt response : simpl never.

(** Case A: proper JSON list.  [Some r] when the case returns or raises,
    [None] when the next case is tried.  The decoding is not guarded: what
    it raises is raised by the loader. *)
Definition case_A (raw : str) : option (result (list value)) :=
  if startswith raw (lit "[") && endswith raw (lit "]") then
    match json_loads raw with
    | Raise e => Some (Raise e)
    | Ok data =>
        match data with
        | PyList l => Some (Ok l)
        | _ => None
        end
    end
  else None.

(** Case B: single JSON object.  The handler catches [JSONDecodeError]
    and nothing else. *)
Definition case_B (raw : str) : option (result (list value)) :=
  match json_loads raw with
  | Ok obj => if isinstance_dict obj then Some (Ok [obj]) else None
  | Raise e => if is_JSONDecodeError e then None else Some (Raise e)
  end.

(** Case C: JSONL, one JSON object per line; the body of the loop, with
    the same handler. *)
Definition jsonl_line (games : list value) (line : str)
  : result (list value) :=
  let line := strip line in
  match line with
  | [] => Ok games
  | _ :: _ =>
      match json_loads line with
      | Ok o => if isinstance_dict o then Ok (games ++ [o]) else Ok games
      | Raise e => if is_JSONDecodeError e then Ok games else Raise e
      end
  end.

(** The loop of case C on the lines left to read. *)
Fixpoint jsonl_lines (games : list value) (lines : list str)
  : result (list value) :=
  match lines with
  | [] => Ok games
  | line :: lines' =>
      match jsonl_line games line with
      | Ok games' => jsonl_lines games' lines'
      | Raise e => Raise e
      end
  end.

Definition case_C (raw : str) : result (list value) :=
  jsonl_lines [] (splitlines raw).

Definition load_games (path : str) : result (list value) :=
  match read_text path with
  | Raise e => Raise e
  | Ok content =>
      let raw := strip content in
      match case_A raw with
      | Some r => r
      | None =>
          match case_B raw with
          | Some r => r
          | None => case_C raw
          end
      end
  end.

(** The body of the loop over the pairs of a round. *)
Definition process_entry (entry : value) : M unit :=
  prompt <- lift (get entry (lit "prompt") (PyStr [])) ;;
  raw <- lift (get entry (lit "raw_resp") (PyStr [])) ;;
  found <- lift (str_in (lit "the Villager") prompt) ;;
  if found && truthy prompt && truthy raw then
    append_villager (Example (format_conversation prompt raw))
  else ret tt.

(** [for player_name, entry in round_actions]. *)
Definition process_round (round_actions : value) : M unit :=
  pairs <- lift (iter round_actions) ;;
  for_each (fun pair =>
              pe <- lift (unpack2 pair) ;;
              process_entry (snd pe))
           pairs.

(** The eliminate turn of a game. *)
Definition process_eliminate (game : value) : M unit :=
  elim <- lift (get game (lit "eliminate") PyNone) ;;
  if isinstance_dict elim then
    p <- lift (get elim (lit "prompt") PyNone) ;;
    if truthy p then
      r <- lift (get elim (lit "raw_resp") PyNone) ;;
      if truthy r then
        prompt <- lift (getitem elim (lit "prompt")) ;;
        response <- lift (getitem elim (lit "raw_resp")) ;;
        append_werewolf (Example (format_conversation prompt response))
      else ret tt
    else ret tt
  else ret tt.

(** The bids of a game. *)
Definition process_bid (game : value) : M unit :=
  bid <- lift (get game (lit "bid") (PyList [])) ;;
  rounds <- lift (iter bid) ;;
  for_each process_round rounds.

(** The body of [for game in games]. *)
Definition process_game (game : value) : M unit :=
  if negb (isinstance_dict game) then ret tt
  else process_eliminate game ;;; process_bid game.

(** The extraction: [for game in games]. *)
Definition extract (games : list value) : M unit :=
  for_each process_game games.

(** The body of [for fn in os.listdir(logs_dir)]. *)
Definition process_file (logs_dir fn : str) : M unit :=
  if negb (endswith (str_lower fn) (lit ".json")) then ret tt
  else
    let path := path_join logs_dir fn in
    games <- lift (load_games path) ;;
    extract games.

Definition process_logs (logs_dir : str)
  : result (list example * list example) :=
  match (fns <- lift (listdir logs_dir) ;;
         for_each (process_file logs_dir) fns) (Accs [] []) with
  | (st, Ok _) => Ok (werewolf_examples st, villager_examples st)
  | (_, Raise e) => Raise e
  end.

(** The examples [extract] returns when it runs on fresh lists. *)
Definition extracted (games : list value)
  : result (list example * list example) :=
  match extract games (Accs [] []) with
  | (st, Ok _) => Ok (werewolf_examples st, villager_examples st)
  | (_, Raise e) => Raise e
  end.

(** ** Notions the properties are stated with *)

(** [needle] occurs in [hay] as a substring. *)
Definition occurs (needle hay : str) : Prop :=
  exists pre post, hay = pre ++ needle ++ post.

(** A text of whitespace only. *)
Definition blank (s : str) : bool := forallb isspace s.

(** A line of a JSONL file that holds the mapping [d], and a line that is
    blank, malformed or holds another value. *)
Definition mapping_line (line : str) (d : dict) : Prop :=
  strip line <> [] /\ json_loads (strip line) = Ok (PyDict d).

Definition skipped_line (line : str) : Prop :=
  strip line = []
  \/ json_loads (strip line) = Raise JSONDecodeError
  \/ exists v, json_loads (strip line) = Ok v /\ isinstance_dict v = false.

(** The decoder, on [s], returns a value or raises [JSONDecodeError]: it
    meets no limit of the interpreter. *)
Definition decodes_or_rejects (s : str) : bool :=
  match json_loads s with
  | Ok _ => true
  | Raise e => is_JSONDecodeError e
  end.

(** A line the loop of case C passes without raising: a blank one, or one
    on which the decoder meets no limit. *)
Definition quiet_line (line : str) : bool :=
  match strip line with
  | [] => true
  | _ :: _ => decodes_or_rejects (strip line)
  end.

(** The test of case A. *)
Definition bracketed (raw : str) : bool :=
  startswith raw (lit "[") && endswith raw (lit "]").

(** A text that is left to the lines of case C: case A did not return it
    as a list, case B did not return it as a mapping, and its decoding
    raised nothing that case B does not catch. *)
Definition read_by_lines (raw : str) : Prop :=
  (bracketed raw = false /\ json_loads raw = Raise JSONDecodeError)
  \/ exists v, json_loads raw = Ok v
               /\ isinstance_dict v = false
               /\ (bracketed raw = true -> forall l, v <> PyList l).

(** A line with its kind: [Some d] for a mapping line, [None] for a
    skipped one. *)
Definition tagged_line (lt : str * option dict) : Prop :=
  match snd lt with
  | Some d => mapping_line (fst lt) d
  | None => skipped_line (fst lt)
  end.

Definition mappings (tagged : list (str * option dict)) : list value :=
  flat_map (fun lt => match snd lt with
                      | Some d => [PyDict d]
                      | None => []
                      end) tagged.

Definition count_mappings (tagged : list (str * option dict)) : nat :=
  length (filter (fun lt => match snd lt with
                            | Some _ => true
                            | None => false
                            end) tagged).

(** What a statement appends when it runs on empty lists. *)
Definition fresh : accs := Accs [] [].

Definition delta {A} (m : M A) : accs := fst (m fresh).

Definition app_accs (st d : accs) : accs :=
  Accs (werewolf_examples st ++ werewolf_examples d)
       (villager_examples st ++ villager_examples d).

(** A statement that only appends to the lists and does not read them:
    on any lists it appends what it appends to empty ones, and ends the
    same way. *)
Definition framed {A} (m : M A) : Prop :=
  forall st, m st = (app_accs st (delta m), snd (m fresh)).

(** The werewolf examples of one game and the villager examples of one
    entry, each taken on its own. *)
Definition game_werewolf (game : value) : list example :=
  werewolf_examples (delta (process_game game)).

Definition entry_villager (entry : value) : list example :=
  villager_examples (delta (process_entry entry)).

(** The werewolf examples read off the eliminate turn of a game: one when
    the turn is a mapping with a true [prompt] and a true [raw_resp], none
    otherwise. *)
Definition eliminate_examples (game : dict) : list example :=
  match dict_lookup game (lit "eliminate") with
  | Some (PyDict elim) =>
      match dict_lookup elim (lit "prompt"),
            dict_lookup elim (lit "raw_resp") with
      | Some p, Some r =>
          if truthy p && truthy r
          then [Example (format_conversation p r)]
          else []
      | _, _ => []
      end
  | _ => []
  end.

(** The rounds of a game and the entries of a round, in the order the
    loops visit them. *)
Definition game_rounds (game : value) : list value :=
  match get game (lit "bid") (PyList []) with
  | Ok bid => match iter bid with Ok rounds => rounds | Raise _ => [] end
  | Raise _ => []
  end.

Definition round_entries (round_actions : value) : list value :=
  match iter round_actions with
  | Ok pairs =>
      flat_map (fun pair => match unpack2 pair with
                            | Ok pe => [snd pe]
                            | Raise _ => []
                            end) pairs
  | Raise _ => []
  end.

(** The villager examples of a game in the order of the specification:
    round after round and, within a round, entry after entry. *)
Definition game_villager (game : value) : list example :=
  flat_map (fun round_actions =>
              flat_map entry_villager (round_entries round_actions))
           (game_rounds game).

(** A string that is not empty, the test the specification words the
    emission with; the program tests [truthy]. *)
Definition nonempty_str (v : value) : bool :=
  match v with
  | PyStr (_ :: _) => true
  | _ => false
  end.

(** [ex] was made from the eliminate turn of one of [games]: the turn is a
    mapping that holds a [prompt] and a [raw_resp], both passing [ok]. *)
Definition from_eliminate (ok : value -> bool) (games : list value)
           (ex : example) : Prop :=
  exists game elim p r,
    In (PyDict game) games
    /\ dict_lookup game (lit "eliminate") = Some (PyDict elim)
    /\ dict_lookup elim (lit "prompt") = Some p
    /\ dict_lookup elim (lit "raw_resp") = Some r
    /\ ok p = true /\ ok r = true
    /\ text ex = format_conversation p r.

(** [ex] was made from an entry of a bid round of one of [games]: the
    entry is a mapping that holds a [prompt] and a [raw_resp], both passing
    [ok]. *)
Definition from_bid (ok : value -> bool) (games : list value)
           (ex : example) : Prop :=
  exists game round_actions entry p r,
    In (PyDict game) games
    /\ In round_actions (game_rounds (PyDict game))
    /\ In (PyDict entry) (round_entries round_actions)
    /\ dict_lookup entry (lit "prompt") = Some p
    /\ dict_lookup entry (lit "raw_resp") = Some r
    /\ ok p = true /\ ok r = true
    /\ text ex = format_conversation p r.

(** ** Notions for the rest of the program *)

(** The separator [format_conversation] puts between prompt and response. *)
Definition separator : str := txt "<im_end>|<im_start>assistant|".

(** A file name the driver takes for a log. *)
Definition json_named (fn : str) : bool :=
  endswith (str_lower fn) (lit ".json").

(** The games the driver loads from an entry of the directory: none for a
    name that is not a log's. *)
Definition loaded (logs_dir fn : str) : list value :=
  if json_named fn then
    match load_games (path_join logs_dir fn) with
    | Ok games => games
    | Raise _ => []
    end
  else [].

(** The shape the bid loops need, as a test on values: the entry of a pair
    is a mapping whose prompt can be searched, a pair unpacks into two, a
    round and a bid can be iterated. *)
Definition entry_ok (entry : value) : bool :=
  match entry with
  | PyDict d =>
      match str_in (lit "the Villager") (dict_get d (lit "prompt") (PyStr [])) with
      | Ok _ => true
      | Raise _ => false
      end
  | _ => false
  end.

Definition pair_ok (pair : value) : bool :=
  match unpack2 pair with
  | Ok pe => entry_ok (snd pe)
  | Raise _ => false
  end.

Definition round_ok (round_actions : value) : bool :=
  match iter round_actions with
  | Ok pairs => forallb pair_ok pairs
  | Raise _ => false
  end.

Definition game_ok (game : value) : bool :=
  match game with
  | PyDict d =>
      match iter (dict_get d (lit "bid") (PyList [])) with
      | Ok rounds => forallb round_ok rounds
      | Raise _ => false
      end
  | _ => true
  end.

(** A game of the data model, as far as the program needs it: no [bid], or
    a list of rounds, each a list of two-element lists whose second element
    is a mapping with no [prompt] or a string for it. *)
Definition model_entry (entry : value) : bool :=
  match entry with
  | PyDict d =>
      match dict_lookup d (lit "prompt") with
      | None | Some (PyStr _) => true
      | Some _ => false
      end
  | _ => false
  end.

Definition model_pair (pair : value) : bool :=
  match pair with
  | PyList [_; entry] => model_entry entry
  | _ => false
  end.

Definition model_round (round_actions : value) : bool :=
  match round_actions with
  | PyList pairs => forallb model_pair pairs
  | _ => false
  end.

Definition model_game (game : value) : bool :=
  match game with
  | PyDict d =>
      match dict_lookup d (lit "bid") with
      | None => true
      | Some (PyList rounds) => forallb model_round rounds
      | Some _ => false
      end
  | _ => true
  end.

(** All the entries the bid loops of [games] visit. *)
Definition all_entries (games : list value) : list value :=
  flat_map (fun game => flat_map round_entries (game_rounds game)) games.

(** The werewolf examples of a game: those of its eliminate turn when the
    game is a mapping. *)
Definition werewolf_of (game : value) : list example :=
  match game with
  | PyDict d => eliminate_examples d
  | _ => []
  end.

(** ** Text *)

Lemma str_eqb_eq (a b : str) : str_eqb a b = true <-> a = b.
Proof.
  revert b; induction a as [|x a IH]; intros [|y b]; simpl;
    try (split; [discriminate | discriminate]); try tauto.
  rewrite andb_true_iff, N.eqb_eq, IH.
  split; [intros [-> ->]; reflexivity | intros H; inversion H; auto].
Qed.

Lemma str_eqb_refl (a : str) : str_eqb a a = true.
Proof. apply str_eqb_eq; reflexivity. Qed.

Lemma startswith_prefix (s p : str) :
  startswith s p = true <-> exists t, s = p ++ t.
Proof.
  revert s; induction p as [|x p IH]; intros s; simpl.
  - split; [intros _; exists s; reflexivity | destruct s; reflexivity].
  - destruct s as [|c s].
    + split; [discriminate | intros [t H]; discriminate].
    + simpl. rewrite andb_true_iff, N.eqb_eq, IH. split.
      * intros [-> [t ->]]. exists t; reflexivity.
      * intros [t H]. inversion H; subst. split; [reflexivity | eauto].
Qed.

Lemma contains_cons (c : char) (hay needle : str) :
  contains (c :: hay) needle
  = startswith (c :: hay) needle || contains hay needle.
Proof. reflexivity. Qed.

(** [contains] decides [occurs]. *)
Lemma contains_occurs (hay needle : str) :
  contains hay needle = true <-> occurs needle hay.
Proof.
  unfold occurs. split.
  - induction hay as [|c hay IH].
    + destruct needle; simpl; [intros _ | discriminate].
      exists [], []. reflexivity.
    + rewrite contains_cons, orb_true_iff. intros [H | H].
      * apply startswith_prefix in H. destruct H as [t ->].
        exists [], t. reflexivity.
      * destruct (IH H) as (pre & post & ->).
        exists (c :: pre), post. reflexivity.
  - intros (pre & post & ->).
    induction pre as [|c pre IH].
    + simpl app.
      assert (H : startswith (needle ++ post) needle = true)
        by (apply startswith_prefix; eauto).
      destruct (needle ++ post); simpl in *; rewrite H; reflexivity.
    + change ((c :: pre) ++ needle ++ post)
        with (c :: (pre ++ needle ++ post)).
      rewrite contains_cons, IH. apply orb_true_r.
Qed.

Lemma lstrip_blank (s : str) : blank s = true -> lstrip s = [].
Proof.
  unfold blank. induction s as [|c s IH]; simpl; [reflexivity |].
  rewrite andb_true_iff. intros [-> H]. auto.
Qed.

Lemma strip_blank (s : str) : blank s = true -> strip s = [].
Proof.
  intros H. unfold strip. rewrite (lstrip_blank _ H). reflexivity.
Qed.

(** ** The formatter *)

(** C3: for all strings [p] and [r], [format_conversation] returns exactly
    ["<im_start>user\n" + p + "<im_end>\n<im_start>assistant\n" + r +
    "<im_end>"], with [p] and [r] inserted verbatim and nothing else; for
    ["hi"] and ["yo"] this is the text the specification gives. *)
Theorem format_conversation_exact :
  (forall p r : str,
      format_conversation (PyStr p) (PyStr r)
      = txt "<im_start>user|" ++ p
        ++ txt "<im_end>|<im_start>assistant|" ++ r ++ txt "<im_end>")
  /\ (forall p r : str,
        length (format_conversation (PyStr p) (PyStr r))
        = 52 + length p + length r)
  /\ format_conversation (PyStr (lit "hi")) (PyStr (lit "yo"))
     = txt "<im_start>user|hi<im_end>|<im_start>assistant|yo<im_end>".
Proof.
  split; [| split].
  - intros p r. reflexivity.
  - intros p r. unfold format_conversation, fstring.
    rewrite !length_app. simpl. lia.
  - reflexivity.
Qed.

(** ** The loader *)

Lemma is_JSONDecodeError_true (e : exn) :
  is_JSONDecodeError e = true <-> e = JSONDecodeError.
Proof. destruct e; split; intros H; try discriminate H; reflexivity. Qed.

Lemma is_JSONDecodeError_false (e : exn) :
  is_JSONDecodeError e = false <-> e <> JSONDecodeError.
Proof.
  destruct e; split; intros H; try discriminate H; try reflexivity;
    try (intros H'; discriminate H').
  exfalso. apply H. reflexivity.
Qed.

Lemma jsonl_line_mapping (games : list value) (line : str) (d : dict) :
  mapping_line line d -> jsonl_line games line = Ok (games ++ [PyDict d]).
Proof.
  intros [Hne Hd]. unfold jsonl_line.
  destruct (strip line) as [|c l]; [contradiction |].
  rewrite Hd. reflexivity.
Qed.

Lemma jsonl_line_skipped (games : list value) (line : str) :
  skipped_line line -> jsonl_line games line = Ok games.
Proof.
  unfold jsonl_line.
  intros [H | [H | (v & H & Hv)]];
    destruct (strip line) as [|c l]; try reflexivity; try discriminate.
  - rewrite H. reflexivity.
  - rewrite H, Hv. reflexivity.
Qed.

(** The loop of case C keeps the mappings of the lines, in order. *)
Lemma jsonl_lines_tagged (tagged : list (str * option dict)) :
  Forall tagged_line tagged ->
  forall games,
    jsonl_lines games (map fst tagged) = Ok (games ++ mappings tagged).
Proof.
  induction 1 as [|[line tag] tagged Hx _ IH]; intros games; simpl.
  - rewrite app_nil_r. reflexivity.
  - unfold tagged_line in Hx; simpl in Hx.
    destruct tag as [d|]; simpl.
    + rewrite (jsonl_line_mapping _ Hx), IH, <- app_assoc. reflexivity.
    + rewrite (jsonl_line_skipped _ Hx), IH. reflexivity.
Qed.

Lemma length_mappings (tagged : list (str * option dict)) :
  length (mappings tagged) = count_mappings tagged.
Proof.
  unfold mappings, count_mappings.
  induction tagged as [|[line [d|]] tagged IH]; simpl; auto.
Qed.

(** A line on which the decoder meets no limit is of one kind or the
    other: the lines of such a text can be tagged. *)
Lemma line_kind (line : str) :
  quiet_line line = true ->
  (exists d, mapping_line line d) \/ skipped_line line.
Proof.
  unfold quiet_line, decodes_or_rejects, mapping_line, skipped_line.
  destruct (strip line) as [|c l] eqn:E; [right; left; reflexivity |].
  destruct (json_loads (c :: l)) as [v|e] eqn:Ev.
  - intros _.
    destruct v; try (right; right; right; eexists; split; [reflexivity |];
                     reflexivity).
    left. exists d. split; [discriminate | reflexivity].
  - intros He. apply is_JSONDecodeError_true in He. subst e.
    right; right; left. reflexivity.
Qed.

Lemma lines_tagging (lines : list str) :
  Forall (fun line => quiet_line line = true) lines ->
  exists tagged, map fst tagged = lines /\ Forall tagged_line tagged.
Proof.
  induction 1 as [|line lines Hq _ (tagged & <- & Ht)].
  - exists []. split; [reflexivity | constructor].
  - destruct (line_kind _ Hq) as [[d Hd] | Hs].
    + exists ((line, Some d) :: tagged). split; [reflexivity |].
      constructor; assumption.
    + exists ((line, None) :: tagged). split; [reflexivity |].
      constructor; assumption.
Qed.

(** A line of either kind is quiet. *)
Lemma tagged_line_quiet (lt : str * option dict) :
  tagged_line lt -> quiet_line (fst lt) = true.
Proof.
  destruct lt as [line [d|]]; unfold tagged_line, quiet_line,
    decodes_or_rejects; simpl.
  - intros [Hne Hd]. destruct (strip line); [reflexivity |].
    rewrite Hd. reflexivity.
  - intros [H | [H | (v & H & _)]]; destruct (strip line);
      try reflexivity; try discriminate H; rewrite H; reflexivity.
Qed.

(** When the file cannot be read the failure is the caller's. *)
Lemma load_games_unreadable (path : str) (e : exn) :
  read_text path = Raise e -> load_games path = Raise e.
Proof. unfold load_games. intros ->. reflexivity. Qed.

Lemma jsonl_line_dicts (games games' : list value) (line : str) :
  Forall (fun g => isinstance_dict g = true) games ->
  jsonl_line games line = Ok games' ->
  Forall (fun g => isinstance_dict g = true) games'.
Proof.
  intros H. unfold jsonl_line.
  destruct (strip line) as [|c l]; [intros E; injection E as <-; exact H |].
  destruct (json_loads (c :: l)) as [o|e].
  - destruct (isinstance_dict o) eqn:Ho; intros E; injection E as <-;
      [| exact H].
    apply Forall_app. split; [exact H | repeat constructor; exact Ho].
  - destruct (is_JSONDecodeError e); intros E;
      [injection E as <-; exact H | discriminate E].
Qed.

Lemma jsonl_lines_dicts (lines : list str) :
  forall games games',
    Forall (fun g => isinstance_dict g = true) games ->
    jsonl_lines games lines = Ok games' ->
    Forall (fun g => isinstance_dict g = true) games'.
Proof.
  induction lines as [|line lines IH]; intros games games' H; simpl.
  - intros E. injection E as <-. exact H.
  - destruct (jsonl_line games line) as [g1|e] eqn:E1; [| discriminate].
    apply IH. exact (jsonl_line_dicts _ H E1).
Qed.

Lemma case_C_dicts (raw : str) (games : list value) :
  case_C raw = Ok games ->
  Forall (fun g => isinstance_dict g = true) games.
Proof.
  unfold case_C. apply jsonl_lines_dicts. constructor.
Qed.

(** The loop of case C returns on quiet lines. *)
Lemma jsonl_lines_quiet (lines : list str) :
  Forall (fun line => quiet_line line = true) lines ->
  forall games, exists games', jsonl_lines games lines = Ok games'.
Proof.
  intros Hq games. destruct (lines_tagging Hq) as (tagged & <- & Ht).
  rewrite (jsonl_lines_tagged Ht). eexists. reflexivity.
Qed.

(** Outside case A a readable file loads, and as mappings only, when no
    decoding meets a limit of the interpreter: the handlers of cases B and
    C catch [JSONDecodeError] and nothing else. *)
Lemma load_games_returns_outside_A (path content : str) :
  read_text path = Ok content ->
  startswith (strip content) (lit "[")
  && endswith (strip content) (lit "]") = false ->
  decodes_or_rejects (strip content) = true ->
  Forall (fun line => quiet_line line = true) (splitlines (strip content)) ->
  exists games, load_games path = Ok games
                /\ Forall (fun g => isinstance_dict g = true) games.
Proof.
  intros Hr HA HB HC. unfold load_games, case_A. rewrite Hr, HA.
  unfold case_B. unfold decodes_or_rejects in HB.
  assert (C : exists games, case_C (strip content) = Ok games
                            /\ Forall (fun g => isinstance_dict g = true) games).
  { destruct (jsonl_lines_quiet HC []) as [games Hg].
    exists games. split; [exact Hg | exact (case_C_dicts _ Hg)]. }
  destruct (json_loads (strip content)) as [obj|e] eqn:E.
  - destruct (isinstance_dict obj) eqn:Ho; [| exact C].
    eexists; split; [reflexivity |]. repeat constructor. exact Ho.
  - rewrite HB. exact C.
Qed.

(** In case A whatever the decoding raises is raised by the loader: the
    decoding there is not guarded. *)
Lemma load_games_case_A_raises (path content : str) (e : exn) :
  read_text path = Ok content ->
  startswith (strip content) (lit "[")
  && endswith (strip content) (lit "]") = true ->
  json_loads (strip content) = Raise e ->
  load_games path = Raise e.
Proof.
  intros Hr HA Hd. unfold load_games, case_A. rewrite Hr, HA, Hd.
  reflexivity.
Qed.

(** In case A a decoded list is returned as it is. *)
Lemma load_games_case_A_list (path content : str) (l : list value) :
  read_text path = Ok content ->
  startswith (strip content) (lit "[")
  && endswith (strip content) (lit "]") = true ->
  json_loads (strip content) = Ok (PyList l) ->
  load_games path = Ok l.
Proof.
  intros Hr HA Hd. unfold load_games, case_A. rewrite Hr, HA, Hd.
  reflexivity.
Qed.

(** X18: a text that fails the bracket test and does not decode to a
    mapping, whose decoding meets no limit of the interpreter and whose
    lines are N mapping lines and M blank, malformed or non-mapping lines
    in any order, loads as exactly the N mappings, in line order. *)
Theorem load_games_jsonl (path content : str)
        (tagged : list (str * option dict)) :
  read_text path = Ok content ->
  startswith (strip content) (lit "[")
  && endswith (strip content) (lit "]") = false ->
  decodes_or_rejects (strip content) = true ->
  (forall d, json_loads (strip content) <> Ok (PyDict d)) ->
  splitlines (strip content) = map fst tagged ->
  Forall tagged_line tagged ->
  load_games path = Ok (mappings tagged)
  /\ length (mappings tagged) = count_mappings tagged.
Proof.
  intros Hr HA HQ HB Hl Ht. split; [| apply length_mappings].
  unfold load_games, case_A. rewrite Hr, HA.
  assert (E : case_B (strip content) = None).
  { unfold case_B. unfold decodes_or_rejects in HQ.
    destruct (json_loads (strip content)) as [obj|e].
    - destruct obj; try reflexivity. exfalso. exact (HB d eq_refl).
    - rewrite HQ. reflexivity. }
  rewrite E. unfold case_C. rewrite Hl, (jsonl_lines_tagged Ht). reflexivity.
Qed.

(** C9: a readable file that is empty or holds only whitespace loads as the
    empty sequence: the array test fails, decoding the whole text fails and
    is swallowed, and there is no line to read. *)
Theorem load_games_blank (path content : str) :
  json_loads [] = Raise JSONDecodeError ->
  read_text path = Ok content ->
  blank content = true ->
  load_games path = Ok [].
Proof.
  intros Hd Hr Hb. unfold load_games. rewrite Hr, (strip_blank _ Hb).
  unfold case_A, case_B. simpl. rewrite Hd. reflexivity.
Qed.

(** ** Statements only append *)

Lemma app_accs_fresh_l (d : accs) : app_accs fresh d = d.
Proof. destruct d; reflexivity. Qed.

Lemma app_accs_fresh_r (st : accs) : app_accs st fresh = st.
Proof. destruct st; unfold app_accs; simpl. rewrite !app_nil_r. reflexivity. Qed.

Lemma app_accs_assoc (a b c : accs) :
  app_accs a (app_accs b c) = app_accs (app_accs a b) c.
Proof. unfold app_accs; simpl. rewrite !app_assoc. reflexivity. Qed.

Lemma framed_ret {A} (a : A) : framed (ret a).
Proof. intros st. unfold ret, delta. simpl. rewrite app_accs_fresh_r. reflexivity. Qed.

Lemma framed_lift {A} (r : result A) : framed (lift r).
Proof. intros st. unfold lift, delta. simpl. rewrite app_accs_fresh_r. reflexivity. Qed.

Lemma framed_append_werewolf (ex : example) : framed (append_werewolf ex).
Proof.
  intros st. unfold append_werewolf, delta, app_accs. simpl.
  rewrite app_nil_r. reflexivity.
Qed.

Lemma framed_append_villager (ex : example) : framed (append_villager ex).
Proof.
  intros st. unfold append_villager, delta, app_accs. simpl.
  rewrite app_nil_r. reflexivity.
Qed.

(** What a sequence appends, by how its first statement ends. *)
Lemma run_bind_fresh {A B} (m : M A) (k : A -> M B) :
  (forall a, framed (k a)) ->
  bind m k fresh
  = match snd (m fresh) with
    | Ok a => (app_accs (delta m) (delta (k a)), snd (k a fresh))
    | Raise e => (delta m, Raise e)
    end.
Proof.
  intros Hk. unfold bind, delta.
  destruct (m fresh) as [d [a|e]]; simpl; [| reflexivity].
  rewrite (Hk a d). reflexivity.
Qed.

Lemma framed_bind {A B} (m : M A) (k : A -> M B) :
  framed m -> (forall a, framed (k a)) -> framed (bind m k).
Proof.
  intros Hm Hk st. unfold delta at 1.
  rewrite (run_bind_fresh m k Hk).
  unfold bind at 1. rewrite (Hm st).
  destruct (snd (m fresh)) as [a|e]; simpl; [| reflexivity].
  rewrite (Hk a), app_accs_assoc. reflexivity.
Qed.

Lemma framed_for_each {A} (body : A -> M unit) (l : list A) :
  (forall x, framed (body x)) -> framed (for_each body l).
Proof.
  intros Hb. induction l as [|x l IH]; simpl.
  - apply framed_ret.
  - apply framed_bind; [apply Hb | intros _; exact IH].
Qed.

Ltac frame :=
  repeat first
    [ apply framed_ret
    | apply framed_lift
    | apply framed_append_werewolf
    | apply framed_append_villager
    | apply framed_for_each; intros
    | apply framed_bind; [| intros]
    | match goal with
      | |- framed (if ?b then _ else _) => destruct b
      end ].

Lemma framed_process_entry (entry : value) : framed (process_entry entry).
Proof. unfold process_entry. frame. Qed.

Lemma framed_process_pair (pair : value) :
  framed (pe <- lift (unpack2 pair) ;; process_entry (snd pe)).
Proof. frame. Qed.

Lemma framed_process_round (round_actions : value) :
  framed (process_round round_actions).
Proof. unfold process_round. frame. Qed.

Lemma framed_process_eliminate (game : value) :
  framed (process_eliminate game).
Proof. unfold process_eliminate. frame. Qed.

Lemma framed_process_bid (game : value) : framed (process_bid game).
Proof. unfold process_bid. frame. Qed.

Lemma framed_process_game (game : value) : framed (process_game game).
Proof.
  unfold process_game. frame.
Qed.

Lemma framed_extract (games : list value) : framed (extract games).
Proof. apply framed_for_each, framed_process_game. Qed.

(** ** What the statements append *)

Lemma run_lift_bind {A B} (r : result A) (k : A -> M B) (st : accs) :
  (x <- lift r ;; k x) st
  = match r with
    | Ok a => k a st
    | Raise e => (st, Raise e)
    end.
Proof. unfold bind, lift. destruct r; reflexivity. Qed.

(** A loop appends only what its bodies append. *)
Lemma for_each_In {A} (body : A -> M unit) (l : list A) :
  (forall x, framed (body x)) ->
  forall ex,
    (In ex (werewolf_examples (delta (for_each body l))) ->
     exists x, In x l /\ In ex (werewolf_examples (delta (body x))))
    /\ (In ex (villager_examples (delta (for_each body l))) ->
        exists x, In x l /\ In ex (villager_examples (delta (body x)))).
Proof.
  intros Hb ex. induction l as [|x l [IHw IHv]].
  - split; intros [].
  - assert (E := run_bind_fresh (body x) (fun _ => for_each body l)
                   (fun _ => framed_for_each body l Hb)).
    unfold delta at 1 3. simpl for_each. rewrite E.
    destruct (snd (body x fresh)); simpl; split; intros H;
      try (apply in_app_or in H; destruct H as [H | H]);
      try (exists x; split; [left; reflexivity | exact H]).
    + destruct (IHw H) as (y & Hy & Hex). exists y. split; [right |]; auto.
    + destruct (IHv H) as (y & Hy & Hex). exists y. split; [right |]; auto.
Qed.

(** A loop that ends normally appends what its bodies append, in the order
    of the list, and every body ended normally. *)
Lemma for_each_ok {A} (body : A -> M unit) (l : list A) :
  (forall x, framed (body x)) ->
  snd (for_each body l fresh) = Ok tt ->
  werewolf_examples (delta (for_each body l))
  = flat_map (fun x => werewolf_examples (delta (body x))) l
  /\ villager_examples (delta (for_each body l))
     = flat_map (fun x => villager_examples (delta (body x))) l
  /\ Forall (fun x => snd (body x fresh) = Ok tt) l.
Proof.
  intros Hb. induction l as [|x l IH].
  - intros _. repeat split. constructor.
  - assert (E := run_bind_fresh (body x) (fun _ => for_each body l)
                   (fun _ => framed_for_each body l Hb)).
    unfold delta at 1 3. simpl for_each. rewrite E.
    destruct (snd (body x fresh)) as [[]|e] eqn:Ex; simpl;
      [| discriminate].
    intros Hl. destruct (IH Hl) as (-> & -> & HF).
    repeat split. constructor; assumption.
Qed.

(** The eliminate turn never raises and appends [eliminate_examples]. *)
Lemma run_process_eliminate (game : dict) (st : accs) :
  process_eliminate (PyDict game) st
  = (app_accs st (Accs (eliminate_examples game) []), Ok tt).
Proof.
  assert (E : forall w, (st, @Ok unit tt) = (app_accs st (Accs [] []), Ok w)).
  { intros []. change (Accs [] []) with fresh.
    rewrite (app_accs_fresh_r st). reflexivity. }
  unfold process_eliminate, eliminate_examples, bind, lift, get, dict_get,
    getitem, append_werewolf, ret, isinstance_dict.
  destruct (dict_lookup game (lit "eliminate")) as [elim|]; [| apply E].
  destruct elim; try apply E.
  destruct (dict_lookup d (lit "prompt")) as [p|]; [| apply E].
  destruct (truthy p);
    [| destruct (dict_lookup d (lit "raw_resp")); apply E].
  destruct (dict_lookup d (lit "raw_resp")) as [r|]; [| apply E].
  destruct (truthy r); [| apply E].
  unfold app_accs. simpl. rewrite app_nil_r. reflexivity.
Qed.

(** An entry that is a mapping: the test, and the example when it
    passes. *)
Lemma run_process_entry_dict (d : dict) (st : accs) :
  process_entry (PyDict d) st
  = let prompt := dict_get d (lit "prompt") (PyStr []) in
    let raw := dict_get d (lit "raw_resp") (PyStr []) in
    match str_in (lit "the Villager") prompt with
    | Ok found =>
        if found && truthy prompt && truthy raw
        then (app_accs st (Accs [] [Example (format_conversation prompt raw)]),
              Ok tt)
        else (st, Ok tt)
    | Raise e => (st, Raise e)
    end.
Proof.
  unfold process_entry, bind, lift, get, append_villager, ret.
  cbv zeta.
  destruct (str_in (lit "the Villager") (dict_get d (lit "prompt") (PyStr [])))
    as [found|e]; [| reflexivity].
  destruct (found && truthy (dict_get d (lit "prompt") (PyStr []))
            && truthy (dict_get d (lit "raw_resp") (PyStr [])));
    [| reflexivity].
  unfold app_accs. simpl. rewrite app_nil_r. reflexivity.
Qed.

(** An entry that is not a mapping has no [get]. *)
Lemma run_process_entry_other (entry : value) (st : accs) :
  isinstance_dict entry = false ->
  process_entry entry st = (st, Raise AttributeError).
Proof. destruct entry; try discriminate; reflexivity. Qed.

Lemma dict_get_truthy (d : dict) (k : str) :
  truthy (dict_get d k (PyStr [])) = true ->
  dict_lookup d k = Some (dict_get d k (PyStr [])).
Proof.
  unfold dict_get. destruct (dict_lookup d k); [reflexivity | discriminate].
Qed.

(** Where the villager examples of an entry come from. *)
Lemma entry_villager_In (entry : value) (ex : example) :
  In ex (entry_villager entry) ->
  exists d p r,
    entry = PyDict d
    /\ dict_lookup d (lit "prompt") = Some p
    /\ dict_lookup d (lit "raw_resp") = Some r
    /\ truthy p = true /\ truthy r = true
    /\ text ex = format_conversation p r.
Proof.
  unfold entry_villager, delta.
  destruct (isinstance_dict entry) eqn:Hd.
  - destruct entry; try discriminate. rewrite run_process_entry_dict.
    cbv zeta.
    destruct (str_in _ _) as [found|e]; [| intros []].
    destruct (truthy (dict_get d (lit "prompt") (PyStr []))) eqn:Hp;
      [| rewrite andb_false_r; intros []].
    destruct (truthy (dict_get d (lit "raw_resp") (PyStr []))) eqn:Hr;
      [| rewrite andb_false_r; intros []].
    destruct found; [| intros []].
    simpl. intros [<- | []].
    exists d, (dict_get d (lit "prompt") (PyStr [])),
           (dict_get d (lit "raw_resp") (PyStr [])).
    repeat split; auto using dict_get_truthy.
  - rewrite run_process_entry_other by exact Hd. intros [].
Qed.

(** An entry appends no werewolf example. *)
Lemma entry_no_werewolf (entry : value) :
  werewolf_examples (delta (process_entry entry)) = [].
Proof.
  unfold delta. destruct (isinstance_dict entry) eqn:Hd.
  - destruct entry; try discriminate. rewrite run_process_entry_dict.
    cbv zeta. destruct (str_in _ _); [| reflexivity].
    destruct (_ && _); reflexivity.
  - rewrite run_process_entry_other by exact Hd. reflexivity.
Qed.

(** The body of the loop over the pairs of a round. *)
Lemma run_process_pair (pair : value) :
  (pe <- lift (unpack2 pair) ;; process_entry (snd pe)) fresh
  = match unpack2 pair with
    | Ok pe => process_entry (snd pe) fresh
    | Raise e => (fresh, Raise e)
    end.
Proof. apply run_lift_bind. Qed.

Lemma run_process_round (round_actions : value) :
  process_round round_actions fresh
  = match iter round_actions with
    | Ok pairs =>
        for_each (fun pair =>
                    pe <- lift (unpack2 pair) ;; process_entry (snd pe))
                 pairs fresh
    | Raise e => (fresh, Raise e)
    end.
Proof. apply run_lift_bind. Qed.

Lemma run_process_bid (game : value) :
  process_bid game fresh
  = match get game (lit "bid") (PyList []) with
    | Ok bid =>
        match iter bid with
        | Ok rounds => for_each process_round rounds fresh
        | Raise e => (fresh, Raise e)
        end
    | Raise e => (fresh, Raise e)
    end.
Proof.
  unfold process_bid. rewrite run_lift_bind.
  destruct (get game (lit "bid") (PyList [])); [| reflexivity].
  apply run_lift_bind.
Qed.

Lemma no_In_nil {A} (l : list A) : (forall x, ~ In x l) -> l = [].
Proof.
  destruct l as [|a l]; [reflexivity |].
  intros H. destruct (H a). left. reflexivity.
Qed.

Lemma pair_no_werewolf (pair : value) :
  werewolf_examples
    (delta (pe <- lift (unpack2 pair) ;; process_entry (snd pe))) = [].
Proof.
  unfold delta. rewrite run_process_pair.
  destruct (unpack2 pair) as [pe|e]; [| reflexivity].
  apply entry_no_werewolf.
Qed.

Lemma round_no_werewolf (round_actions : value) :
  werewolf_examples (delta (process_round round_actions)) = [].
Proof.
  apply no_In_nil. intros ex. unfold delta. rewrite run_process_round.
  destruct (iter round_actions) as [pairs|e]; [| intros []].
  intros H. apply (for_each_In _ pairs framed_process_pair) in H.
  destruct H as (pair & _ & H). rewrite pair_no_werewolf in H. exact H.
Qed.

(** The bids append no werewolf example. *)
Lemma bid_no_werewolf (game : value) :
  werewolf_examples (delta (process_bid game)) = [].
Proof.
  apply no_In_nil. intros ex. unfold delta. rewrite run_process_bid.
  destruct (get game (lit "bid") (PyList [])) as [bid|e]; [| intros []].
  destruct (iter bid) as [rounds|e]; [| intros []].
  intros H. apply (for_each_In _ rounds framed_process_round) in H.
  destruct H as (r & _ & H). rewrite round_no_werewolf in H. exact H.
Qed.

(** A game that is a mapping: the eliminate turn, then the bids. *)
Lemma run_process_game_dict (game : dict) (st : accs) :
  process_game (PyDict game) st
  = (app_accs (app_accs st (Accs (eliminate_examples game) []))
              (delta (process_bid (PyDict game))),
     snd (process_bid (PyDict game) fresh)).
Proof.
  change (process_game (PyDict game) st)
    with ((process_eliminate (PyDict game) ;;; process_bid (PyDict game)) st).
  unfold bind. rewrite run_process_eliminate.
  apply (framed_process_bid (PyDict game)).
Qed.

(** A game that is not a mapping is skipped. *)
Lemma run_process_game_other (game : value) (st : accs) :
  isinstance_dict game = false -> process_game game st = (st, Ok tt).
Proof. intros H. unfold process_game. rewrite H. reflexivity. Qed.

Lemma game_werewolf_dict (game : dict) :
  game_werewolf (PyDict game) = eliminate_examples game.
Proof.
  unfold game_werewolf, delta. rewrite run_process_game_dict. simpl.
  rewrite bid_no_werewolf, app_nil_r. reflexivity.
Qed.

Lemma eliminate_examples_In (game : dict) (ex : example) :
  In ex (eliminate_examples game) ->
  exists elim p r,
    dict_lookup game (lit "eliminate") = Some (PyDict elim)
    /\ dict_lookup elim (lit "prompt") = Some p
    /\ dict_lookup elim (lit "raw_resp") = Some r
    /\ truthy p = true /\ truthy r = true
    /\ text ex = format_conversation p r.
Proof.
  unfold eliminate_examples.
  destruct (dict_lookup game (lit "eliminate")) as [elim|]; [| intros []].
  destruct elim; try (intros []).
  destruct (dict_lookup d (lit "prompt")) as [p|] eqn:Hp; [| intros []].
  destruct (dict_lookup d (lit "raw_resp")) as [r|] eqn:Hr; [| intros []].
  destruct (truthy p) eqn:Tp; [| intros []].
  destruct (truthy r) eqn:Tr; [| intros []].
  intros [<- | []]. exists d, p, r. repeat split; assumption.
Qed.

(** The villager examples of a round come from its entries. *)
Lemma round_villager_In (round_actions : value) (ex : example) :
  In ex (villager_examples (delta (process_round round_actions))) ->
  exists entry,
    In entry (round_entries round_actions) /\ In ex (entry_villager entry).
Proof.
  unfold delta, round_entries. rewrite run_process_round.
  destruct (iter round_actions) as [pairs|e]; [| intros []].
  intros H. apply (for_each_In _ pairs framed_process_pair) in H.
  destruct H as (pair & Hin & H). unfold delta in H.
  rewrite run_process_pair in H.
  destruct (unpack2 pair) as [pe|e] eqn:Hu; [| destruct H].
  exists (snd pe). split; [| exact H].
  apply in_flat_map. exists pair. rewrite Hu. split; [exact Hin | left; auto].
Qed.

Lemma bid_villager_In (game : value) (ex : example) :
  In ex (villager_examples (delta (process_bid game))) ->
  exists round_actions entry,
    In round_actions (game_rounds game)
    /\ In entry (round_entries round_actions)
    /\ In ex (entry_villager entry).
Proof.
  unfold delta, game_rounds. rewrite run_process_bid.
  destruct (get game (lit "bid") (PyList [])) as [bid|e]; [| intros []].
  destruct (iter bid) as [rounds|e]; [| intros []].
  intros H. apply (for_each_In _ rounds framed_process_round) in H.
  destruct H as (r & Hin & H).
  destruct (round_villager_In _ _ H) as (entry & He & Hex).
  exists r, entry. auto.
Qed.

Lemma flat_map_flat_map {A B C} (f : B -> list C) (g : A -> list B)
      (l : list A) :
  flat_map f (flat_map g l) = flat_map (fun x => flat_map f (g x)) l.
Proof.
  induction l as [|x l IH]; simpl; [reflexivity |].
  rewrite flat_map_app, IH. reflexivity.
Qed.

Lemma flat_map_Forall_ext {A B} (P : A -> Prop) (f g : A -> list B)
      (l : list A) :
  Forall P l -> (forall x, P x -> f x = g x) -> flat_map f l = flat_map g l.
Proof.
  intros HF H. induction HF as [|x l Hx _ IH]; simpl; [reflexivity |].
  rewrite (H x Hx), IH. reflexivity.
Qed.

(** A pair whose body ended normally was a pair, and appended what its
    entry appends. *)
Lemma pair_villager_ok (pair : value) :
  snd ((pe <- lift (unpack2 pair) ;; process_entry (snd pe)) fresh) = Ok tt ->
  villager_examples
    (delta (pe <- lift (unpack2 pair) ;; process_entry (snd pe)))
  = flat_map entry_villager
             match unpack2 pair with
             | Ok pe => [snd pe]
             | Raise _ => []
             end.
Proof.
  unfold delta. rewrite run_process_pair.
  destruct (unpack2 pair) as [pe|e]; [| discriminate].
  intros _. simpl. rewrite app_nil_r. reflexivity.
Qed.

(** A round that ended normally appended the examples of its entries, in
    their order. *)
Lemma round_villager_ok (round_actions : value) :
  snd (process_round round_actions fresh) = Ok tt ->
  villager_examples (delta (process_round round_actions))
  = flat_map entry_villager (round_entries round_actions).
Proof.
  unfold delta, round_entries. rewrite run_process_round.
  destruct (iter round_actions) as [pairs|e]; [| discriminate].
  intros H.
  destruct (for_each_ok _ pairs framed_process_pair H) as (_ & Hv & HF).
  fold (delta (for_each
                 (fun pair => pe <- lift (unpack2 pair) ;;
                              process_entry (snd pe)) pairs)).
  rewrite Hv, flat_map_flat_map.
  apply (flat_map_Forall_ext _ _ HF). intros pair Hp.
  apply pair_villager_ok, Hp.
Qed.

(** Bids that ended normally appended the examples of their rounds, in
    their order. *)
Lemma bid_villager_ok (game : value) :
  snd (process_bid game fresh) = Ok tt ->
  villager_examples (delta (process_bid game)) = game_villager game.
Proof.
  unfold delta, game_villager, game_rounds. rewrite run_process_bid.
  destruct (get game (lit "bid") (PyList [])) as [bid|e]; [| discriminate].
  destruct (iter bid) as [rounds|e]; [| discriminate].
  intros H.
  destruct (for_each_ok _ rounds framed_process_round H) as (_ & Hv & HF).
  fold (delta (for_each process_round rounds)).
  rewrite Hv.
  apply (flat_map_Forall_ext _ _ HF). intros r Hr.
  apply round_villager_ok, Hr.
Qed.

Lemma game_villager_ok (game : value) :
  snd (process_game game fresh) = Ok tt ->
  villager_examples (delta (process_game game)) = game_villager game.
Proof.
  unfold delta. destruct (isinstance_dict game) eqn:Hd.
  - destruct game; try discriminate. rewrite run_process_game_dict.
    simpl. apply bid_villager_ok.
  - rewrite run_process_game_other by exact Hd. intros _.
    destruct game; try discriminate; reflexivity.
Qed.

(** ** The extractor *)

(** C8: within each category the examples come in the order of the records
    and, for the bids of one record, in the order of its rounds and of the
    entries of each round. *)
Theorem extracted_in_order (games : list value) (w v : list example) :
  extracted games = Ok (w, v) ->
  w = flat_map game_werewolf games
  /\ v = flat_map
           (fun game =>
              flat_map (fun round_actions =>
                          flat_map entry_villager
                                   (round_entries round_actions))
                       (game_rounds game))
           games.
Proof.
  unfold extracted, extract.
  destruct (for_each process_game games (Accs [] [])) as [st [[]|e]] eqn:E;
    [| discriminate].
  intros H. injection H as <- <-.
  assert (Hs : snd (for_each process_game games fresh) = Ok tt)
    by (unfold fresh; rewrite E; reflexivity).
  destruct (for_each_ok _ games framed_process_game Hs) as (Hw & Hv & HF).
  unfold delta, fresh in Hw, Hv. rewrite E in Hw, Hv. simpl in Hw, Hv.
  split; [exact Hw |].
  rewrite Hv. apply (flat_map_Forall_ext _ _ HF). intros game Hg.
  apply game_villager_ok, Hg.
Qed.

(** What the extraction of one game that is a mapping returns. *)
Lemma extracted_single (game : dict) :
  extracted [PyDict game]
  = match snd (process_bid (PyDict game) fresh) with
    | Ok _ => Ok (eliminate_examples game,
                  villager_examples (delta (process_bid (PyDict game))))
    | Raise e => Raise e
    end.
Proof.
  unfold extracted, extract. simpl for_each. unfold bind.
  rewrite run_process_game_dict.
  destruct (snd (process_bid (PyDict game) fresh)); [| reflexivity].
  unfold ret. simpl. rewrite bid_no_werewolf, app_nil_r. reflexivity.
Qed.

(** The bids of a game with one round of one pair are the entry of the
    pair. *)
Lemma run_bid_record (name entry : value) (st : accs) :
  process_bid (bid_record name entry) st
  = (fst (process_entry entry st),
     match snd (process_entry entry st) with
     | Ok _ => Ok tt
     | Raise e => Raise e
     end).
Proof.
  cbv -[process_entry].
  destruct (process_entry entry st) as [st' [[]|e]]; reflexivity.
Qed.

(** C7, as the program has it: whatever the records and however the
    extraction ends, every example it appended was made from an entry (the
    eliminate turn of a record, or an entry of one of its bid rounds) that
    holds both a [prompt] and a [raw_resp] that are true values, and its
    text is [format_conversation] of the two; a string is a true value when
    it is not empty. *)
Theorem extract_examples_sources (games : list value) (st : accs) :
  exists w v,
    fst (extract games st) = app_accs st (Accs w v)
    /\ Forall (from_eliminate truthy games) w
    /\ Forall (from_bid truthy games) v
    /\ truthy (PyStr []) = false.
Proof.
  exists (werewolf_examples (delta (extract games))),
         (villager_examples (delta (extract games))).
  split; [| split; [| split; [| reflexivity]]].
  - rewrite (framed_extract games st). simpl.
    destruct (delta (extract games)); reflexivity.
  - apply Forall_forall. intros ex H.
    apply (for_each_In _ games framed_process_game) in H.
    destruct H as (game & Hin & H).
    destruct (isinstance_dict game) eqn:Hd.
    + destruct game; try discriminate.
      fold (game_werewolf (PyDict d)) in H. rewrite game_werewolf_dict in H.
      destruct (eliminate_examples_In _ _ H)
        as (elim & p & r & H1 & H2 & H3 & H4 & H5 & H6).
      exists d, elim, p, r. repeat split; assumption.
    + unfold delta in H. rewrite run_process_game_other in H by exact Hd.
      destruct H.
  - apply Forall_forall. intros ex H.
    apply (for_each_In _ games framed_process_game) in H.
    destruct H as (game & Hin & H).
    destruct (isinstance_dict game) eqn:Hd.
    + destruct game; try discriminate.
      unfold delta in H. rewrite run_process_game_dict in H. simpl in H.
      destruct (bid_villager_In _ _ H) as (r & entry & Hr & He & Hex).
      destruct (entry_villager_In _ _ Hex)
        as (e & p & q & -> & H2 & H3 & H4 & H5 & H6).
      exists d, r, e, p, q. repeat split; assumption.
    + unfold delta in H. rewrite run_process_game_other in H by exact Hd.
      destruct H.
Qed.

(** C4: the record [{"eliminate": {"prompt": P, "raw_resp": R}}] with [P]
    and [R] non-empty strings yields exactly one werewolf example, of text
    [format_conversation P R]; a record whose eliminate mapping lacks
    [raw_resp] yields no werewolf example, as [{"eliminate": {"prompt":
    P}}] does. *)
Theorem eliminate_turn_examples :
  (forall P R : str,
      P <> [] -> R <> [] ->
      extracted [eliminate_record P R]
      = Ok ([Example (format_conversation (PyStr P) (PyStr R))], []))
  /\ (forall (game elim : dict) (st : accs),
        dict_lookup game (lit "eliminate") = Some (PyDict elim) ->
        dict_lookup elim (lit "raw_resp") = None ->
        werewolf_examples (fst (extract [PyDict game] st))
        = werewolf_examples st)
  /\ (forall P : str,
        extracted [eliminate_record_no_resp P] = Ok ([], [])).
Proof.
  split; [| split].
  - intros [|c P] [|c' R] HP HR; try contradiction. reflexivity.
  - intros game elim st Hg He.
    unfold extract. simpl for_each. unfold bind.
    rewrite run_process_game_dict.
    assert (E : eliminate_examples game = []).
    { unfold eliminate_examples. rewrite Hg, He.
      destruct (dict_lookup elim (lit "prompt")); reflexivity. }
    rewrite E.
    destruct (snd (process_bid (PyDict game) fresh)); simpl;
      rewrite bid_no_werewolf, !app_nil_r; reflexivity.
  - intros [|c P]; reflexivity.
Qed.


(** C10: a record whose bid holds a round with a well-shaped pair
    [(player_name, entry)] whose entry is not a mapping, a string for one,
    makes the extraction raise: reading a field of the entry fails. *)
Theorem non_mapping_entry_raises :
  extracted [bid_record (PyStr (lit "Alice")) (PyStr (lit "oops"))]
  = Raise AttributeError
  /\ (forall name entry : value,
        isinstance_dict entry = false ->
        unpack2 (PyList [name; entry]) = Ok (name, entry)
        /\ extracted [bid_record name entry] = Raise AttributeError).
Proof.
  split; [reflexivity |].
  intros name entry Hd. split; [reflexivity |].
  change (bid_record name entry)
    with (PyDict [(lit "bid", PyList [PyList [PyList [name; entry]]])]).
  rewrite extracted_single.
  change (PyDict [(lit "bid", PyList [PyList [PyList [name; entry]]])])
    with (bid_record name entry).
  rewrite run_bid_record, run_process_entry_other by exact Hd.
  reflexivity.
Qed.

(** ** More on the loader *)

Lemma blank_rev (s : str) : blank (rev s) = blank s.
Proof.
  unfold blank. destruct (forallb isspace s) eqn:E.
  - apply forallb_forall. intros c Hc. apply in_rev in Hc.
    exact (proj1 (forallb_forall _ _) E c Hc).
  - destruct (forallb isspace (rev s)) eqn:E'; [| reflexivity].
    rewrite <- E. symmetry. apply forallb_forall. intros c Hc.
    apply in_rev in Hc. exact (proj1 (forallb_forall _ _) E' c Hc).
Qed.

Lemma lstrip_app_blank (pre s : str) :
  blank pre = true -> lstrip (pre ++ s) = lstrip s.
Proof.
  unfold blank. induction pre as [|c pre IH]; simpl; [reflexivity |].
  rewrite andb_true_iff. intros [-> H]. auto.
Qed.

Lemma rstrip_app_blank (s post : str) :
  blank post = true -> rstrip (s ++ post) = rstrip s.
Proof.
  intros H. unfold rstrip. rewrite rev_app_distr, lstrip_app_blank;
    [reflexivity | rewrite blank_rev; exact H].
Qed.

Lemma strip_app_blank (s post : str) :
  blank post = true -> strip (s ++ post) = strip s.
Proof.
  intros H. unfold strip. induction s as [|c s IH]; simpl.
  - rewrite lstrip_blank by exact H. reflexivity.
  - destruct (isspace c); [exact IH |].
    apply (@rstrip_app_blank (c :: s) post H).
Qed.

(** Whitespace around a text does not change what it strips to. *)
Lemma strip_padded (pre s post : str) :
  blank pre = true -> blank post = true ->
  strip (pre ++ s ++ post) = strip s.
Proof.
  intros Hpre Hpost.
  transitivity (strip (s ++ post)); [| apply strip_app_blank, Hpost].
  unfold strip. rewrite lstrip_app_blank by exact Hpre. reflexivity.
Qed.

(** Where the games of case C come from. *)
Lemma jsonl_lines_In (lines : list str) (g : value) :
  forall games games',
    jsonl_lines games lines = Ok games' ->
    In g games' ->
    In g games
    \/ exists line, In line lines /\ strip line <> []
                    /\ json_loads (strip line) = Ok g.
Proof.
  induction lines as [|line lines IH]; intros games games'; simpl.
  - intros E Hg. injection E as <-. left. exact Hg.
  - destruct (jsonl_line games line) as [g1|e1] eqn:E1; [| discriminate].
    intros E Hg. destruct (IH _ _ E Hg) as [H1 | (l & Hl & Hn & Hd)].
    + unfold jsonl_line in E1.
      destruct (strip line) as [|c r] eqn:Es;
        [injection E1 as <-; left; exact H1 |].
      destruct (json_loads (c :: r)) as [o|e] eqn:Eo.
      * destruct (isinstance_dict o); injection E1 as <-;
          [| left; exact H1].
        apply in_app_or in H1. destruct H1 as [H1 | [<- | []]];
          [left; exact H1 |].
        right. exists line. rewrite Es.
        split; [left; reflexivity |]. split; [discriminate | exact Eo].
      * destruct (is_JSONDecodeError e); [| discriminate E1].
        injection E1 as <-. left. exact H1.
    + right. exists l. split; [right; exact Hl |]. split; assumption.
Qed.

(** A line makes the loop of case C raise exactly when it is not blank
    and its decoding raises something else than [JSONDecodeError]. *)
Lemma jsonl_line_raise_iff (games : list value) (line : str) (e : exn) :
  jsonl_line games line = Raise e
  <-> strip line <> [] /\ json_loads (strip line) = Raise e
      /\ e <> JSONDecodeError.
Proof.
  unfold jsonl_line. destruct (strip line) as [|c r].
  - split; [discriminate |]. intros [H _]. contradiction.
  - destruct (json_loads (c :: r)) as [o|e0].
    + split.
      * destruct (isinstance_dict o); discriminate.
      * intros (_ & H & _). discriminate H.
    + destruct (is_JSONDecodeError e0) eqn:D.
      * split; [discriminate |]. intros (_ & H & Hne).
        injection H as ->. apply is_JSONDecodeError_true in D.
        contradiction.
      * apply is_JSONDecodeError_false in D. split.
        -- intros H. injection H as <-.
           split; [discriminate |]. split; [reflexivity | exact D].
        -- intros (_ & H & _). injection H as ->. reflexivity.
Qed.

Lemma jsonl_line_quiet (games : list value) (line : str) :
  quiet_line line = true -> exists games', jsonl_line games line = Ok games'.
Proof.
  unfold quiet_line, decodes_or_rejects, jsonl_line.
  destruct (strip line) as [|c r]; [intros _; eexists; reflexivity |].
  destruct (json_loads (c :: r)) as [o|e].
  - intros _. destruct (isinstance_dict o); eexists; reflexivity.
  - intros ->. eexists; reflexivity.
Qed.

(** The loop of case C raises what the first line that is not quiet
    raises. *)
Lemma jsonl_lines_raise_iff (lines : list str) (e : exn) :
  forall games,
    jsonl_lines games lines = Raise e
    <-> exists before line after,
          lines = before ++ line :: after
          /\ Forall (fun l => quiet_line l = true) before
          /\ strip line <> []
          /\ json_loads (strip line) = Raise e
          /\ e <> JSONDecodeError.
Proof.
  induction lines as [|line lines IH]; intros games; simpl.
  - split; [discriminate |].
    intros (before & l & after & H & _). destruct before; discriminate H.
  - destruct (jsonl_line games line) as [g1|e1] eqn:E1.
    + rewrite IH. split.
      * intros (before & l & after & -> & Hq & Hl).
        exists (line :: before), l, after.
        split; [reflexivity |]. split; [| exact Hl].
        constructor; [| exact Hq].
        unfold quiet_line, decodes_or_rejects. unfold jsonl_line in E1.
        destruct (strip line) as [|c r]; [reflexivity |].
        destruct (json_loads (c :: r)) as [o|e0]; [reflexivity |].
        destruct (is_JSONDecodeError e0); [reflexivity | discriminate E1].
      * intros ([|l0 before] & l & after & H & Hq & Hl).
        -- simpl in H. injection H as <- _.
           apply (jsonl_line_raise_iff games) in Hl.
           rewrite E1 in Hl. discriminate Hl.
        -- simpl in H. injection H as <- ->.
           exists before, l, after.
           split; [reflexivity |]. split; [| exact Hl].
           inversion Hq; assumption.
    + split.
      * intros H. injection H as ->.
        exists [], line, lines. split; [reflexivity |].
        split; [constructor |].
        apply (jsonl_line_raise_iff games). exact E1.
      * intros ([|l0 before] & l & after & H & Hq & Hl).
        -- simpl in H. injection H as <- _.
           apply (jsonl_line_raise_iff games) in Hl.
           rewrite E1 in Hl. exact Hl.
        -- simpl in H. injection H as <- _.
           inversion Hq as [|? ? Hq0 _]; subst.
           destruct (jsonl_line_quiet games _ Hq0) as [g' Hg'].
           rewrite E1 in Hg'. discriminate Hg'.
Qed.

(** X1: [load_games] raises exactly what reading the file raises, what
    the decoding of case A raises, and what a decoding of case B or of
    case C raises other than [JSONDecodeError], which their handlers
    catch; in case C, it is what the first line that raises it raises. *)
Theorem load_games_raises_iff (path : str) (e : exn) :
  load_games path = Raise e
  <-> read_text path = Raise e
      \/ exists content,
           read_text path = Ok content
           /\ ((bracketed (strip content) = true
                /\ json_loads (strip content) = Raise e)
               \/ (bracketed (strip content) = false
                   /\ json_loads (strip content) = Raise e
                   /\ e <> JSONDecodeError)
               \/ (read_by_lines (strip content)
                   /\ exists before line after,
                        splitlines (strip content) = before ++ line :: after
                        /\ Forall (fun l => quiet_line l = true) before
                        /\ strip line <> []
                        /\ json_loads (strip line) = Raise e
                        /\ e <> JSONDecodeError)).
Proof.
  unfold load_games.
  destruct (read_text path) as [content|e0].
  2:{ split.
      - intros H. injection H as <-. left. reflexivity.
      - intros [H | (c & H & _)]; [| discriminate H].
        injection H as <-. reflexivity. }
  set (raw := strip content).
  (* what the three cases do, by the bracket test and the decoding *)
  assert (LINES : read_by_lines raw ->
                  match case_A raw with
                  | Some r => r
                  | None => match case_B raw with
                            | Some r => r
                            | None => case_C raw
                            end
                  end = case_C raw).
  { unfold read_by_lines, case_A, case_B, bracketed.
    intros [[HA Hd] | (v & Hd & Hv & Hl)]; rewrite Hd.
    - rewrite HA. reflexivity.
    - rewrite Hv.
      destruct (startswith raw (lit "[") && endswith raw (lit "]"));
        [| reflexivity].
      destruct v; try reflexivity. exfalso. exact (Hl eq_refl l eq_refl). }
  destruct (bracketed raw) eqn:HA; pose proof HA as HA';
    unfold bracketed in HA';
    destruct (json_loads raw) as [v|e1] eqn:Hd.
  - (* bracket test passed, decoded *)
    destruct v.
    7:{ (* a mapping: returned by case B *)
        unfold case_A, case_B. rewrite HA', Hd.
        simpl. split; [discriminate |].
        intros [H | (c & Hc & [(_ & H) | [(H & _) | ([(H & _) | (v & H & Hv & _)] & _)]])];
          try discriminate H; injection Hc as <-; fold raw in H;
          try (rewrite Hd in H; discriminate H);
          try (rewrite HA in H; discriminate H).
        rewrite Hd in H. injection H as <-. discriminate Hv. }
    6:{ (* a list: returned by case A *)
        unfold case_A. rewrite HA', Hd.
        split; [discriminate |].
        intros [H | (c & Hc & [(_ & H) | [(H & _) | ([(H & _) | (v & H & _ & Hl)] & _)]])];
          try discriminate H; injection Hc as <-; fold raw in H;
          try (rewrite Hd in H; discriminate H);
          try (rewrite HA in H; discriminate H).
        rewrite Hd in H. injection H as <-.
        fold raw in Hl.
        exfalso. exact (Hl HA l eq_refl). }
    all: (assert (R : read_by_lines raw)
            by (right; eexists; split; [exact Hd |];
                split; [reflexivity |]; intros _ l0 Hl0; discriminate Hl0);
          rewrite (LINES R); unfold case_C; rewrite jsonl_lines_raise_iff;
          split;
          [ intros H; right; exists content; split; [reflexivity |];
            right; right; split; [exact R | exact H]
          | intros [H | (c & Hc & [(_ & H) | [(H & _) | (_ & H)]])];
            [ discriminate H
            | injection Hc as <-; fold raw in H; rewrite Hd in H;
              discriminate H
            | injection Hc as <-; fold raw in H; rewrite HA in H;
              discriminate H
            | injection Hc as <-; exact H ] ]).
  - (* bracket test passed, the decoding raised *)
    unfold case_A. rewrite HA', Hd.
    split.
    + intros H. injection H as <-. right. exists content.
      split; [reflexivity |]. left. split; assumption.
    + intros [H | (c & Hc & [(_ & H) | [(H & _) | ([(H & _) | (v & H & _)] & _)]])];
        try discriminate H; injection Hc as <-; fold raw in H.
      * rewrite Hd in H. injection H as <-. reflexivity.
      * rewrite HA in H. discriminate H.
      * rewrite HA in H. discriminate H.
      * rewrite Hd in H. discriminate H.
  - (* bracket test failed, decoded *)
    destruct (isinstance_dict v) eqn:Hv.
    + unfold case_A, case_B. rewrite HA', Hd, Hv.
      split; [discriminate |].
      intros [H | (c & Hc & [(H & _) | [(_ & H & _) | ([(_ & H) | (v' & H & Hv' & _)] & _)]])];
        try discriminate H; injection Hc as <-; fold raw in H.
      * rewrite HA in H. discriminate H.
      * rewrite Hd in H. discriminate H.
      * rewrite Hd in H. discriminate H.
      * rewrite Hd in H. injection H as <-. rewrite Hv in Hv'.
        discriminate Hv'.
    + assert (R : read_by_lines raw).
      { right. exists v. split; [exact Hd |]. split; [exact Hv |].
        intros H. rewrite HA in H. discriminate H. }
      rewrite (LINES R). unfold case_C. rewrite jsonl_lines_raise_iff.
      split.
      * intros H. right. exists content. split; [reflexivity |].
        right; right. split; [exact R | exact H].
      * intros [H | (c & Hc & [(H & _) | [(_ & H & _) | (_ & H)]])];
          try discriminate H; injection Hc as <-; fold raw in H.
        -- rewrite HA in H. discriminate H.
        -- rewrite Hd in H. discriminate H.
        -- exact H.
  - (* bracket test failed, the decoding raised *)
    destruct (is_JSONDecodeError e1) eqn:D.
    + apply is_JSONDecodeError_true in D. subst e1.
      assert (R : read_by_lines raw) by (left; split; assumption).
      rewrite (LINES R). unfold case_C. rewrite jsonl_lines_raise_iff.
      split.
      * intros H. right. exists content. split; [reflexivity |].
        right; right. split; [exact R | exact H].
      * intros [H | (c & Hc & [(H & _) | [(_ & H & Hne) | (_ & H)]])];
          try discriminate H; injection Hc as <-; fold raw in H.
        -- rewrite HA in H. discriminate H.
        -- rewrite Hd in H. injection H as <-. exfalso. apply Hne.
           reflexivity.
        -- exact H.
    + unfold case_A, case_B. rewrite HA', Hd, D.
      apply is_JSONDecodeError_false in D. split.
      * intros H. injection H as <-. right. exists content.
        split; [reflexivity |]. right; left. split; [exact HA |].
        split; [exact Hd | exact D].
      * intros [H | (c & Hc & [(H & _) | [(_ & H & _) | ([(_ & H) | (v & H & _)] & _)]])];
          try discriminate H; injection Hc as <-; fold raw in H.
        -- rewrite HA in H. discriminate H.
        -- rewrite Hd in H. injection H as <-. reflexivity.
        -- rewrite Hd in H. injection H as H. exfalso. apply D. exact H.
        -- rewrite Hd in H. discriminate H.
Qed.

(** X2: a text that decodes as a whole is loaded as a whole: a mapping
    gives the sequence of that one mapping, in whichever case it is met,
    and a list that passes the bracket test gives its elements, in order
    and unfiltered. *)
Theorem load_games_whole_document (path content : str) :
  read_text path = Ok content ->
  (forall d, json_loads (strip content) = Ok (PyDict d) ->
             load_games path = Ok [PyDict d])
  /\ (forall l, startswith (strip content) (lit "[")
                && endswith (strip content) (lit "]") = true ->
                json_loads (strip content) = Ok (PyList l) ->
                load_games path = Ok l).
Proof.
  intros Hr. split.
  - intros d Hd. unfold load_games, case_A, case_B. rewrite Hr, Hd.
    destruct (_ && _); reflexivity.
  - intros l HA Hd. exact (@load_games_case_A_list path content l Hr HA Hd).
Qed.

(** X3: when the text fails the bracket test, the loader does not raise
    [JSONDecodeError]; every game it returns is a mapping that is the
    decoding of the whole text or of one of its lines, stripped and not
    blank; and it returns when no decoding, of the text or of a line, meets
    a limit of the interpreter. *)
Theorem load_games_outside_array_case (path content : str) :
  read_text path = Ok content ->
  startswith (strip content) (lit "[")
  && endswith (strip content) (lit "]") = false ->
  load_games path <> Raise JSONDecodeError
  /\ (forall games,
         load_games path = Ok games ->
         Forall (fun g =>
                   isinstance_dict g = true
                   /\ (json_loads (strip content) = Ok g
                       \/ exists line,
                            In line (splitlines (strip content))
                            /\ strip line <> []
                            /\ json_loads (strip line) = Ok g))
                games)
  /\ (decodes_or_rejects (strip content) = true ->
      Forall (fun line => quiet_line line = true)
             (splitlines (strip content)) ->
      exists games, load_games path = Ok games).
Proof.
  intros Hr HA. split; [| split].
  - unfold load_games, case_A, case_B. rewrite Hr, HA.
    destruct (json_loads (strip content)) as [obj|e] eqn:E.
    + destruct (isinstance_dict obj); [discriminate |].
      unfold case_C. intros H. apply jsonl_lines_raise_iff in H.
      destruct H as (_ & _ & _ & _ & _ & _ & _ & H). apply H. reflexivity.
    + destruct (is_JSONDecodeError e) eqn:D.
      * unfold case_C. intros H. apply jsonl_lines_raise_iff in H.
        destruct H as (_ & _ & _ & _ & _ & _ & _ & H). apply H. reflexivity.
      * intros H. injection H as ->. discriminate D.
  - intros games Hg. apply Forall_forall. intros g Hin.
    unfold load_games, case_A, case_B in Hg. rewrite Hr, HA in Hg.
    assert (C : case_C (strip content) = Ok games ->
                isinstance_dict g = true
                /\ (json_loads (strip content) = Ok g
                    \/ exists line,
                         In line (splitlines (strip content))
                         /\ strip line <> []
                         /\ json_loads (strip line) = Ok g)).
    { intros HC. split.
      - exact (proj1 (Forall_forall _ _) (case_C_dicts _ HC) g Hin).
      - unfold case_C in HC.
        destruct (@jsonl_lines_In _ g _ _ HC Hin) as [[] | H]. right. exact H. }
    destruct (json_loads (strip content)) as [obj|e] eqn:E.
    + destruct (isinstance_dict obj) eqn:Ho; [| exact (C Hg)].
      injection Hg as <-. destruct Hin as [<- | []].
      split; [exact Ho | left; reflexivity].
    + destruct (is_JSONDecodeError e); [exact (C Hg) | discriminate Hg].
  - intros HB HC.
    destruct (@load_games_returns_outside_A path content Hr HA HB HC)
      as (games & Hg & _).
    exists games. exact Hg.
Qed.

(** X4: whitespace before and after the text of a file does not change
    what is loaded from it. *)
Theorem load_games_ignores_outer_whitespace
        (path path' content pre post : str) :
  read_text path = Ok content ->
  read_text path' = Ok (pre ++ content ++ post) ->
  blank pre = true -> blank post = true ->
  load_games path' = load_games path.
Proof.
  intros Hr Hr' Hpre Hpost. unfold load_games.
  rewrite Hr, Hr', strip_padded by assumption. reflexivity.
Qed.

(** ** More on the formatter *)

Lemma app_inj_length {A} (a b x y : list A) :
  length a = length b -> a ++ x = b ++ y -> a = b /\ x = y.
Proof.
  revert b. induction a as [|c a IH]; intros [|d b] Hl H;
    try discriminate Hl.
  - auto.
  - simpl in Hl, H. injection H as -> H. injection Hl as Hl.
    destruct (IH b Hl H) as [-> ->]. auto.
Qed.

(** X5: two conversations of strings with the same text have the same
    prompt and the same response as soon as their prompts, or their
    responses, have the same length; so the text determines the response
    once the prompt is known, and the prompt once the response is. *)
Theorem format_conversation_inj (p p' r r' : str) :
  length p = length p' \/ length r = length r' ->
  format_conversation (PyStr p) (PyStr r)
  = format_conversation (PyStr p') (PyStr r') ->
  p = p' /\ r = r'.
Proof.
  intros Hl H.
  assert (Hp : length p = length p').
  { destruct Hl as [Hl | Hl]; [exact Hl |].
    apply (f_equal (@length char)) in H.
    unfold format_conversation, fstring in H.
    rewrite !length_app in H. lia. }
  unfold format_conversation, fstring in H.
  apply app_inv_head in H.
  destruct (app_inj_length _ _ _ _ Hp H) as [-> H'].
  split; [reflexivity |].
  apply app_inv_head in H'. apply app_inv_head in H'.
  apply app_inv_tail in H'. exact H'.
Qed.

(** X6: the texts are inserted without escaping, so a separator inside
    them is taken for the real one: moving the part of a prompt after a
    separator to the front of the response gives the same conversation
    from a different prompt. *)
Theorem format_conversation_collision (x y z : str) :
  format_conversation (PyStr (x ++ separator ++ y)) (PyStr z)
  = format_conversation (PyStr x) (PyStr (y ++ separator ++ z))
  /\ x ++ separator ++ y <> x.
Proof.
  split.
  - unfold format_conversation, fstring.
    change ((lit "<im_end>" ++ [LF])
            ++ (lit "<im_start>assistant" ++ [LF]) ++ z ++ lit "<im_end>")
      with (separator ++ z ++ lit "<im_end>").
    change ((lit "<im_end>" ++ [LF])
            ++ (lit "<im_start>assistant" ++ [LF])
            ++ (y ++ separator ++ z) ++ lit "<im_end>")
      with (separator ++ (y ++ separator ++ z) ++ lit "<im_end>").
    rewrite <- !app_assoc. reflexivity.
  - intros H. apply (f_equal (@length char)) in H.
    rewrite !length_app in H. simpl in H. lia.
Qed.

(** ** More on the extractor *)

Lemma for_each_app {A} (body : A -> M unit) (a b : list A) (st : accs) :
  for_each body (a ++ b) st = (for_each body a ;;; for_each body b) st.
Proof.
  revert st. induction a as [|x a IH]; intros st; simpl.
  - reflexivity.
  - unfold bind. destruct (body x st) as [st' [[]|e]]; [| reflexivity].
    rewrite IH. reflexivity.
Qed.

(** X7: extracting from two sequences of games one after the other is
    extracting from their concatenation: the examples of the first come
    before those of the second in each category, and the first failure is
    the failure of the whole. *)
Theorem extracted_app (games1 games2 : list value) :
  extracted (games1 ++ games2)
  = match extracted games1 with
    | Ok (w1, v1) =>
        match extracted games2 with
        | Ok (w2, v2) => Ok (w1 ++ w2, v1 ++ v2)
        | Raise e => Raise e
        end
    | Raise e => Raise e
    end.
Proof.
  unfold extracted, extract. rewrite for_each_app. unfold bind.
  destruct (for_each process_game games1 (Accs [] [])) as [st1 [[]|e]];
    [| reflexivity].
  fold (extract games2). rewrite (framed_extract games2 st1).
  unfold delta, fresh.
  destruct (extract games2 (Accs [] [])) as [st2 [[]|e]]; reflexivity.
Qed.

Lemma extract_filter (games : list value) (st : accs) :
  extract (filter isinstance_dict games) st = extract games st.
Proof.
  unfold extract. revert st.
  induction games as [|game games IH]; intros st; simpl; [reflexivity |].
  destruct (isinstance_dict game) eqn:Hd; simpl; unfold bind.
  - destruct (process_game game st) as [st' [[]|e]]; [apply IH | reflexivity].
  - rewrite run_process_game_other by exact Hd. apply IH.
Qed.

(** X8: games that are not mappings, which the array case can return, do
    not count: the extraction is the extraction of the games that are
    mappings. *)
Theorem extracted_skips_non_mappings (games : list value) :
  extracted (filter isinstance_dict games) = extracted games.
Proof. unfold extracted. rewrite extract_filter. reflexivity. Qed.

(** What an extraction that returns has appended, game by game. *)
Lemma extracted_ok_lists (games : list value) (w v : list example) :
  extracted games = Ok (w, v) ->
  w = flat_map game_werewolf games /\ v = flat_map game_villager games.
Proof.
  unfold extracted, extract.
  destruct (for_each process_game games (Accs [] [])) as [st [[]|e]] eqn:E;
    [| discriminate].
  intros H. injection H as <- <-.
  assert (Hs : snd (for_each process_game games fresh) = Ok tt)
    by (unfold fresh; rewrite E; reflexivity).
  destruct (for_each_ok _ games framed_process_game Hs) as (Hw & Hv & HF).
  unfold delta, fresh in Hw, Hv. rewrite E in Hw, Hv. simpl in Hw, Hv.
  split; [exact Hw |].
  rewrite Hv. apply (flat_map_Forall_ext _ _ HF). intros game Hg.
  apply game_villager_ok, Hg.
Qed.

Lemma game_werewolf_is (game : value) : game_werewolf game = werewolf_of game.
Proof.
  destruct (isinstance_dict game) eqn:Hd.
  - destruct game; try discriminate. apply game_werewolf_dict.
  - unfold game_werewolf, delta.
    rewrite run_process_game_other by exact Hd.
    destruct game; try discriminate; reflexivity.
Qed.

Lemma length_eliminate_examples (game : dict) :
  length (eliminate_examples game) <= 1.
Proof.
  unfold eliminate_examples.
  destruct (dict_lookup game (lit "eliminate")) as [[]|]; simpl; try lia.
  destruct (dict_lookup d (lit "prompt")); simpl; try lia.
  destruct (dict_lookup d (lit "raw_resp")); simpl; try lia.
  destruct (_ && _); simpl; lia.
Qed.

Lemma length_entry_villager (entry : value) :
  length (entry_villager entry) <= 1.
Proof.
  unfold entry_villager, delta. destruct (isinstance_dict entry) eqn:Hd.
  - destruct entry; try discriminate. rewrite run_process_entry_dict.
    cbv zeta. destruct (str_in _ _); simpl; [| lia].
    destruct (_ && _); simpl; lia.
  - rewrite run_process_entry_other by exact Hd. simpl. lia.
Qed.

Lemma length_flat_map_le {A B} (f : A -> list B) (l : list A) :
  (forall x, length (f x) <= 1) -> length (flat_map f l) <= length l.
Proof.
  intros H. induction l as [|x l IH]; simpl; [lia |].
  rewrite length_app. specialize (H x). lia.
Qed.

Lemma game_villager_entries (games : list value) :
  flat_map game_villager games = flat_map entry_villager (all_entries games).
Proof.
  unfold all_entries, game_villager. rewrite flat_map_flat_map.
  apply flat_map_ext. intros game. rewrite flat_map_flat_map. reflexivity.
Qed.

(** X9: an extraction that returns has made at most one werewolf example
    for each game that is a mapping and at most one villager example for
    each entry of the bid rounds. *)
Theorem extracted_counts (games : list value) (w v : list example) :
  extracted games = Ok (w, v) ->
  length w <= length (filter isinstance_dict games)
  /\ length v <= length (all_entries games).
Proof.
  intros H. destruct (extracted_ok_lists _ H) as [-> ->]. split.
  - clear H. induction games as [|game games IH]; simpl; [lia |].
    rewrite length_app, game_werewolf_is.
    destruct game; simpl; try exact IH.
    pose proof (length_eliminate_examples d). lia.
  - rewrite game_villager_entries.
    apply length_flat_map_le, length_entry_villager.
Qed.

Lemma run_process_bid_absent (game : dict) :
  dict_lookup game (lit "bid") = None ->
  process_bid (PyDict game) fresh = (fresh, Ok tt).
Proof.
  intros H. rewrite run_process_bid. unfold get, dict_get. rewrite H.
  reflexivity.
Qed.

Lemma extract_no_bid (games : list value) :
  (forall d, In (PyDict d) games -> dict_lookup d (lit "bid") = None) ->
  forall st,
    extract games st
    = (app_accs st (Accs (flat_map werewolf_of games) []), Ok tt).
Proof.
  unfold extract. induction games as [|game games IH]; intros H st; simpl.
  - change (Accs [] []) with fresh. rewrite app_accs_fresh_r. reflexivity.
  - unfold bind. destruct (isinstance_dict game) eqn:Hd.
    + destruct game; try discriminate.
      rewrite run_process_game_dict.
      rewrite (run_process_bid_absent d) by (apply H; left; reflexivity).
      unfold delta. rewrite (run_process_bid_absent d)
        by (apply H; left; reflexivity).
      simpl fst. rewrite app_accs_fresh_r, IH
        by (intros d' Hd'; apply H; right; exact Hd').
      unfold app_accs. simpl. rewrite <- !app_assoc, !app_nil_r.
      reflexivity.
    + rewrite run_process_game_other by exact Hd.
      rewrite IH by (intros d' Hd'; apply H; right; exact Hd').
      destruct game; try discriminate; reflexivity.
Qed.

(** X10: games without a [bid] key never make the extraction fail,
    whatever they hold under [eliminate], and yield no villager example:
    the result is the examples of the eliminate turns, in order. *)
Theorem extracted_no_bid (games : list value) :
  (forall d, In (PyDict d) games -> dict_lookup d (lit "bid") = None) ->
  extracted games = Ok (flat_map werewolf_of games, []).
Proof.
  intros H. unfold extracted. rewrite (extract_no_bid games H).
  reflexivity.
Qed.

(** A loop that fails has a body that fails the same way. *)
Lemma for_each_raise {A} (body : A -> M unit) (l : list A) (e : exn) :
  (forall x, framed (body x)) ->
  snd (for_each body l fresh) = Raise e ->
  exists x, In x l /\ snd (body x fresh) = Raise e.
Proof.
  intros Hb. induction l as [|x l IH]; simpl for_each.
  - discriminate.
  - rewrite (run_bind_fresh (body x) (fun _ => for_each body l)
               (fun _ => framed_for_each body l Hb)).
    destruct (snd (body x fresh)) as [u|e'] eqn:Ex; simpl.
    + intros H. destruct (IH H) as (y & Hy & He). exists y. auto.
    + intros H. injection H as <-. exists x. auto.
Qed.

(** A loop returns exactly when all its bodies do. *)
Lemma for_each_returns {A} (body : A -> M unit) (ok : A -> bool)
      (l : list A) :
  (forall x, framed (body x)) ->
  (forall x, snd (body x fresh) = Ok tt <-> ok x = true) ->
  snd (for_each body l fresh) = Ok tt <-> forallb ok l = true.
Proof.
  intros Hb Hok. induction l as [|x l IH]; simpl for_each; simpl forallb.
  - split; reflexivity.
  - rewrite (run_bind_fresh (body x) (fun _ => for_each body l)
               (fun _ => framed_for_each body l Hb)).
    rewrite andb_true_iff, <- IH, <- Hok.
    destruct (snd (body x fresh)) as [[]|e]; simpl.
    + split; [intros H; split; [reflexivity | exact H] | intros [_ H]; exact H].
    + split; [discriminate | intros [H _]; discriminate].
Qed.

Lemma str_in_raise (s : str) (v : value) (e : exn) :
  str_in s v = Raise e -> e = TypeError.
Proof. destruct v; simpl; congruence. Qed.

Lemma unpack2_raise (v : value) (e : exn) :
  unpack2 v = Raise e -> e = TypeError \/ e = ValueError.
Proof.
  unfold unpack2. destruct (iter v) as [l|e'] eqn:E.
  - destruct l as [|a [|b [|c l]]]; intros H; inversion H; auto.
  - intros H. injection H as <-. left.
    destruct v; simpl in E; congruence.
Qed.

Lemma iter_raise (v : value) (e : exn) : iter v = Raise e -> e = TypeError.
Proof. destruct v; simpl; congruence. Qed.

Lemma entry_raise (entry : value) (e : exn) :
  snd (process_entry entry fresh) = Raise e ->
  e = AttributeError \/ e = TypeError.
Proof.
  destruct (isinstance_dict entry) eqn:Hd.
  - destruct entry; try discriminate. rewrite run_process_entry_dict.
    cbv zeta. destruct (str_in _ _) as [found|e'] eqn:E.
    + destruct (_ && _); discriminate.
    + intros H. injection H as <-. right. exact (str_in_raise _ _ E).
  - rewrite run_process_entry_other by exact Hd.
    intros H. injection H as <-. auto.
Qed.

Lemma pair_raise (pair : value) (e : exn) :
  snd ((pe <- lift (unpack2 pair) ;; process_entry (snd pe)) fresh)
  = Raise e ->
  e = AttributeError \/ e = TypeError \/ e = ValueError.
Proof.
  rewrite run_process_pair. destruct (unpack2 pair) as [pe|e'] eqn:E.
  - intros H. destruct (entry_raise _ H); auto.
  - intros H. injection H as <-. destruct (unpack2_raise _ E); auto.
Qed.

Lemma round_raise (round_actions : value) (e : exn) :
  snd (process_round round_actions fresh) = Raise e ->
  e = AttributeError \/ e = TypeError \/ e = ValueError.
Proof.
  rewrite run_process_round.
  destruct (iter round_actions) as [pairs|e'] eqn:E.
  - intros H.
    destruct (for_each_raise _ pairs framed_process_pair H) as (x & _ & Hx).
    exact (pair_raise _ Hx).
  - intros H. injection H as <-. right. left. exact (iter_raise _ E).
Qed.

Lemma game_raise (game : value) (e : exn) :
  snd (process_game game fresh) = Raise e ->
  e = AttributeError \/ e = TypeError \/ e = ValueError.
Proof.
  destruct (isinstance_dict game) eqn:Hd.
  - destruct game; try discriminate. rewrite run_process_game_dict.
    simpl snd. rewrite run_process_bid. unfold get. cbv beta iota.
    destruct (iter (dict_get d (lit "bid") (PyList [])))
      as [rounds|e'] eqn:E.
    + intros H.
      destruct (for_each_raise _ rounds framed_process_round H)
        as (x & _ & Hx).
      exact (round_raise _ Hx).
    + intros H. injection H as <-. right. left. exact (iter_raise _ E).
  - rewrite run_process_game_other by exact Hd. discriminate.
Qed.

(** X11: the extraction fails with [AttributeError], [TypeError] or
    [ValueError] only; in particular the subscripts of the eliminate turn
    never raise [KeyError]. *)
Theorem extract_exceptions (games : list value) (st : accs) (e : exn) :
  snd (extract games st) = Raise e ->
  e = AttributeError \/ e = TypeError \/ e = ValueError.
Proof.
  rewrite (framed_extract games st). simpl snd. intros H.
  destruct (for_each_raise _ games framed_process_game H) as (g & _ & Hg).
  exact (game_raise _ Hg).
Qed.

Lemma entry_returns (entry : value) :
  snd (process_entry entry fresh) = Ok tt <-> entry_ok entry = true.
Proof.
  unfold entry_ok. destruct (isinstance_dict entry) eqn:Hd.
  - destruct entry; try discriminate. rewrite run_process_entry_dict.
    cbv zeta. destruct (str_in _ _) as [found|e].
    + destruct (_ && _); simpl; split; reflexivity.
    + simpl. split; discriminate.
  - rewrite run_process_entry_other by exact Hd.
    destruct entry; try discriminate; simpl; split; discriminate.
Qed.

Lemma pair_returns (pair : value) :
  snd ((pe <- lift (unpack2 pair) ;; process_entry (snd pe)) fresh) = Ok tt
  <-> pair_ok pair = true.
Proof.
  rewrite run_process_pair. unfold pair_ok.
  destruct (unpack2 pair) as [pe|e]; [apply entry_returns |].
  simpl. split; discriminate.
Qed.

Lemma round_returns (round_actions : value) :
  snd (process_round round_actions fresh) = Ok tt
  <-> round_ok round_actions = true.
Proof.
  rewrite run_process_round. unfold round_ok.
  destruct (iter round_actions) as [pairs|e].
  - apply for_each_returns; [apply framed_process_pair | apply pair_returns].
  - simpl. split; discriminate.
Qed.

Lemma game_returns (game : value) :
  snd (process_game game fresh) = Ok tt <-> game_ok game = true.
Proof.
  destruct (isinstance_dict game) eqn:Hd.
  - destruct game; try discriminate. rewrite run_process_game_dict.
    simpl snd. rewrite run_process_bid. unfold get, game_ok.
    cbv beta iota.
    destruct (iter (dict_get d (lit "bid") (PyList []))) as [rounds|e].
    + apply for_each_returns;
        [apply framed_process_round | apply round_returns].
    + simpl. split; discriminate.
  - rewrite run_process_game_other by exact Hd.
    destruct game; try discriminate; simpl; split; reflexivity.
Qed.

Lemma extract_returns (games : list value) :
  snd (extract games fresh) = Ok tt <-> forallb game_ok games = true.
Proof.
  apply for_each_returns; [apply framed_process_game | apply game_returns].
Qed.

Lemma extracted_returns (games : list value) :
  (exists w v, extracted games = Ok (w, v))
  <-> snd (extract games fresh) = Ok tt.
Proof.
  unfold extracted, fresh.
  destruct (extract games (Accs [] [])) as [st [[]|e]]; simpl.
  - split; [reflexivity | intros _; eauto].
  - split; [intros (w & v & H); discriminate | discriminate].
Qed.

(** X12: the extraction returns exactly when every game that is a mapping
    has a bid of the shape the loops need: a bid and rounds that can be
    iterated, pairs that unpack into two, entries that are mappings, and
    prompts that can be searched. *)
Theorem extracted_returns_iff (games : list value) :
  (exists w v, extracted games = Ok (w, v))
  <-> forallb game_ok games = true.
Proof. rewrite extracted_returns. apply extract_returns. Qed.

Lemma model_entry_ok (entry : value) :
  model_entry entry = true -> entry_ok entry = true.
Proof.
  destruct entry; try discriminate. unfold model_entry, entry_ok, dict_get.
  destruct (dict_lookup d (lit "prompt")) as [[]|]; try discriminate;
    reflexivity.
Qed.

Lemma model_pair_ok (pair : value) :
  model_pair pair = true -> pair_ok pair = true.
Proof.
  destruct pair; try discriminate.
  destruct l as [|a [|b [|c l]]]; try discriminate.
  apply model_entry_ok.
Qed.

Lemma forallb_impl {A} (f g : A -> bool) (l : list A) :
  (forall x, f x = true -> g x = true) ->
  forallb f l = true -> forallb g l = true.
Proof.
  intros H. rewrite !forallb_forall. intros Hf x Hx. auto.
Qed.

Lemma model_round_ok (round_actions : value) :
  model_round round_actions = true -> round_ok round_actions = true.
Proof.
  destruct round_actions; try discriminate.
  apply forallb_impl, model_pair_ok.
Qed.

Lemma model_game_ok (game : value) :
  model_game game = true -> game_ok game = true.
Proof.
  destruct game; try reflexivity. unfold model_game, game_ok, dict_get.
  destruct (dict_lookup d (lit "bid")) as [[]|]; try discriminate;
    [| reflexivity].
  apply forallb_impl, model_round_ok.
Qed.

(** X13: on games of the data model the extraction never fails: a game
    that is a mapping with no bid, or with a bid that is a list of rounds,
    each a list of two-element lists whose second element is a mapping
    with no prompt or a string for one; whatever else the games hold. *)
Theorem extracted_model_games (games : list value) :
  forallb model_game games = true ->
  exists w v, extracted games = Ok (w, v).
Proof.
  intros H. apply extracted_returns, extract_returns.
  revert H. apply forallb_impl, model_game_ok.
Qed.

Lemma entry_villager_marked (entry : value) (ex : example) :
  In ex (entry_villager entry) ->
  exists p r,
    text ex = format_conversation p r
    /\ str_in (lit "the Villager") p = Ok true.
Proof.
  unfold entry_villager, delta. destruct (isinstance_dict entry) eqn:Hd.
  - destruct entry; try discriminate. rewrite run_process_entry_dict.
    cbv zeta. destruct (str_in _ _) as [found|e] eqn:E; [| intros []].
    destruct found; [| intros []].
    destruct (_ && _); [| intros []].
    simpl. intros [<- | []].
    exists (dict_get d (lit "prompt") (PyStr [])),
           (dict_get d (lit "raw_resp") (PyStr [])).
    split; [reflexivity | exact E].
  - rewrite run_process_entry_other by exact Hd. intros [].
Qed.

(** X14: a villager example is only ever made from a prompt in which "the
    Villager" was found, a substring of it when the prompt is a string:
    the extraction appends to the villager list conversations of such
    prompts only, however it ends. *)
Theorem villager_examples_marked (games : list value) (st : accs) :
  exists v,
    villager_examples (fst (extract games st)) = villager_examples st ++ v
    /\ Forall (fun ex =>
                 exists p r,
                   text ex = format_conversation p r
                   /\ str_in (lit "the Villager") p = Ok true
                   /\ forall s, p = PyStr s -> occurs (lit "the Villager") s)
              v.
Proof.
  exists (villager_examples (delta (extract games))). split.
  - rewrite (framed_extract games st). reflexivity.
  - apply Forall_forall. intros ex H.
    apply (for_each_In _ games framed_process_game) in H.
    destruct H as (game & _ & H).
    destruct (isinstance_dict game) eqn:Hd.
    + destruct game; try discriminate.
      unfold delta in H. rewrite run_process_game_dict in H. simpl in H.
      destruct (bid_villager_In _ _ H) as (r & entry & _ & _ & Hex).
      destruct (entry_villager_marked _ _ Hex) as (p & q & Ht & Hm).
      exists p, q. repeat split; try assumption.
      intros s ->. simpl in Hm. injection Hm as Hm.
      apply contains_occurs, Hm.
    + unfold delta in H. rewrite run_process_game_other in H by exact Hd.
      destruct H.
Qed.

(** ** The driver *)

Lemma for_each_ext {A} (f g : A -> M unit) (l : list A) :
  (forall x st, f x st = g x st) ->
  forall st, for_each f l st = for_each g l st.
Proof.
  intros H. induction l as [|x l IH]; intros st; simpl; [reflexivity |].
  unfold bind. rewrite H. destruct (g x st) as [st' [[]|e]];
    [apply IH | reflexivity].
Qed.

Lemma framed_process_file (logs_dir fn : str) :
  framed (process_file logs_dir fn).
Proof.
  unfold process_file.
  destruct (negb (endswith (str_lower fn) (lit ".json")));
    [apply framed_ret |].
  cbv zeta. apply framed_bind; [apply framed_lift |].
  intros games. apply framed_extract.
Qed.

(** A file the driver takes for a log and loads is extracted; any other
    entry of the directory is passed over. *)
Lemma run_process_file (logs_dir fn : str) (st : accs) :
  (json_named fn = true ->
   exists games, load_games (path_join logs_dir fn) = Ok games) ->
  process_file logs_dir fn st = extract (loaded logs_dir fn) st.
Proof.
  unfold process_file, loaded, json_named.
  destruct (endswith (str_lower fn) (lit ".json")); unfold negb;
    cbv beta iota zeta.
  - intros H. destruct (H eq_refl) as [games Hg].
    rewrite run_lift_bind, Hg. reflexivity.
  - intros _. reflexivity.
Qed.

Lemma run_files (logs_dir : str) (fns : list str) :
  Forall (fun fn =>
            json_named fn = true ->
            exists games, load_games (path_join logs_dir fn) = Ok games)
         fns ->
  forall st,
    for_each (process_file logs_dir) fns st
    = extract (flat_map (loaded logs_dir) fns) st.
Proof.
  induction 1 as [|fn fns Hfn _ IH]; intros st; simpl; [reflexivity |].
  unfold extract at 1. rewrite for_each_app. unfold bind.
  rewrite (run_process_file logs_dir fn st Hfn). fold (extract (loaded logs_dir fn)).
  destruct (extract (loaded logs_dir fn) st) as [st' [[]|e]];
    [apply IH | reflexivity].
Qed.

(** X15: when the directory can be listed and every file named as a log
    loads, the driver returns what the extraction returns on the games of
    those files put end to end in the order of the listing; entries that
    are not named as logs contribute nothing. *)
Theorem process_logs_concat (logs_dir : str) (fns : list str) :
  listdir logs_dir = Ok fns ->
  Forall (fun fn =>
            json_named fn = true ->
            exists games, load_games (path_join logs_dir fn) = Ok games)
         fns ->
  process_logs logs_dir = extracted (flat_map (loaded logs_dir) fns).
Proof.
  intros Hl HF. unfold process_logs, extracted.
  rewrite run_lift_bind, Hl, (@run_files logs_dir fns HF). reflexivity.
Qed.

(** X16: the driver returns only when the directory was listed and every
    file named as a log was read and loaded: one log that cannot be read,
    or an array log that does not decode, and there is no result at all. *)
Theorem process_logs_all_loaded (logs_dir : str) (w v : list example) :
  process_logs logs_dir = Ok (w, v) ->
  exists fns,
    listdir logs_dir = Ok fns
    /\ Forall (fun fn =>
                 json_named fn = true ->
                 exists games, load_games (path_join logs_dir fn) = Ok games)
              fns.
Proof.
  unfold process_logs. rewrite run_lift_bind.
  destruct (listdir logs_dir) as [fns|e]; [| discriminate].
  destruct (for_each (process_file logs_dir) fns (Accs [] []))
    as [st [[]|e]] eqn:E; [| discriminate].
  intros _. exists fns. split; [reflexivity |].
  assert (Hs : snd (for_each (process_file logs_dir) fns fresh) = Ok tt)
    by (unfold fresh; rewrite E; reflexivity).
  destruct (for_each_ok _ fns (framed_process_file logs_dir) Hs)
    as (_ & _ & HF).
  apply Forall_forall. intros fn Hin Hj.
  pose proof (proj1 (Forall_forall _ _) HF fn Hin) as Hfn.
  cbv beta in Hfn. unfold process_file in Hfn.
  unfold json_named in Hj. rewrite Hj in Hfn. unfold negb in Hfn.
  cbv beta iota zeta in Hfn. rewrite run_lift_bind in Hfn.
  destruct (load_games (path_join logs_dir fn)) as [games|e];
    [eauto | discriminate].
Qed.

End LogsToChatml.

(** ** The program on the samples *)

(** The driver on a sample directory: the file without the suffix is
    ignored, the others are loaded in the order of the listing. *)
Example process_logs_sample :
  process_logs Json.loads str_of_atom logs_files logs_listing logs_join
               ascii_lower (lit "logs")
  = Ok ([Example (txt "<im_start>user|P<im_end>|<im_start>assistant|R<im_end>");
         Example (txt "<im_start>user|Q<im_end>|<im_start>assistant|S<im_end>")],
        [Example (txt "<im_start>user|ask the Villager X<im_end>|<im_start>assistant|Y<im_end>")]).
Proof. vm_compute. reflexivity. Qed.

(** C1 does not hold of the program: a readable file whose text starts
    with an opening bracket and ends with a closing one but is not valid
    JSON, here an array cut after a comma, makes [load_games] raise
    [JSONDecodeError] instead of returning a sequence; the decoding of case
    A is outside any [try]. *)
Theorem load_games_broken_array_raises :
  startswith (strip broken_array) (lit "[")
  && endswith (strip broken_array) (lit "]") = true
  /\ Json.loads (strip broken_array) = Raise JSONDecodeError
  /\ load_games Json.loads (one_file (lit "game.json") broken_array)
                (lit "game.json")
     = Raise JSONDecodeError.
Proof. repeat split; vm_compute; reflexivity. Qed.

(** C2 does not hold of the program: for a file that holds a valid JSON
    array, [load_games] returns the elements of the array as they are,
    those that are not mappings too. *)
Theorem load_games_mixed_array_unfiltered :
  load_games Json.loads (one_file (lit "game.json") mixed_array)
             (lit "game.json")
  = Ok [PyInt 1; PyStr (lit "x"); PyDict [(lit "bid", PyList [])]]
  /\ isinstance_dict (PyInt 1) = false
  /\ isinstance_dict (PyStr (lit "x")) = false.
Proof. repeat split; vm_compute; reflexivity. Qed.

(** C6 does not hold of the program: a JSONL file with one mapping line
    between two lines that hold arrays is neither a JSON array nor a single
    JSON object, as its text does not decode, and its lines hold one
    mapping; but the text starts with an opening bracket and ends with a
    closing one, so that [load_games] decodes it in case A, outside any
    [try], and raises [JSONDecodeError] instead of returning the
    mapping. *)
Theorem load_games_bracketed_jsonl_raises :
  Json.loads (strip bracketed_jsonl) = Raise JSONDecodeError
  /\ splitlines (strip bracketed_jsonl) = map fst bracketed_jsonl_tagged
  /\ Forall (tagged_line Json.loads) bracketed_jsonl_tagged
  /\ mappings bracketed_jsonl_tagged = [PyDict [(lit "id", PyInt 1)]]
  /\ count_mappings bracketed_jsonl_tagged = 1
  /\ load_games Json.loads (one_file (lit "game.json") bracketed_jsonl)
                (lit "game.json")
     = Raise JSONDecodeError.
Proof.
  split; [vm_compute; reflexivity |].
  split; [vm_compute; reflexivity |].
  split.
  - unfold bracketed_jsonl_tagged.
    apply Forall_cons;
      [right; right; exists (PyList [PyInt 1]); split; vm_compute;
       reflexivity |].
    apply Forall_cons;
      [split; [vm_compute; discriminate | vm_compute; reflexivity] |].
    apply Forall_cons;
      [right; right; exists (PyList [PyInt 2]); split; vm_compute;
       reflexivity |].
    apply Forall_nil.
  - repeat split; vm_compute; reflexivity.
Qed.

(** The handlers of cases B and C catch [JSONDecodeError] only: an integer
    of more digits than [int] converts makes the decoding of case B raise
    [ValueError], and the loader with it, though the text fails the bracket
    test; with one digit less the text is read by lines. *)
Example load_games_long_integer :
  startswith (strip long_integer_file) (lit "[")
  && endswith (strip long_integer_file) (lit "]") = false
  /\ load_games Json.loads (one_file (lit "game.json") long_integer_file)
                (lit "game.json")
     = Raise ValueError
  /\ load_games Json.loads
                (one_file (lit "game.json")
                          (txt "[1|, " ++ repeat 49%N 4300))
                (lit "game.json")
     = Ok [].
Proof.
  split; [vm_compute; reflexivity |].
  split; vm_compute; reflexivity.
Qed.

(** C7 as worded fails: the record whose eliminate turn holds the number
    5 as its prompt yields an example, though no entry of the record holds
    a prompt that is a non-empty string. *)
Lemma number_prompt_counterexample :
  extracted str_of_atom [number_prompt_record]
  = Ok ([number_prompt_example], [])
  /\ ~ from_eliminate str_of_atom nonempty_str [number_prompt_record]
                      number_prompt_example
  /\ ~ from_bid str_of_atom nonempty_str [number_prompt_record]
                number_prompt_example.
Proof.
  split; [vm_compute; reflexivity |]. split.
  - intros (game & elim & p & r & Hin & Hg & Hp & Hr & Op & _).
    destruct Hin as [E | []]. injection E as <-.
    vm_compute in Hg. injection Hg as <-.
    vm_compute in Hp. injection Hp as <-.
    discriminate Op.
  - intros (game & round_actions & entry & p & r & Hin & Hr & _).
    destruct Hin as [E | []]. injection E as <-.
    vm_compute in Hr. exact Hr.
Qed.

(** ** The properties at the samples *)

Lemma eliminate_turn_examples_witness :
  extracted str_of_atom [eliminate_record (lit "P") (lit "R")]
  = Ok ([Example (format_conversation str_of_atom (PyStr (lit "P"))
                                      (PyStr (lit "R")))], [])
  /\ werewolf_examples
       (fst (extract str_of_atom [eliminate_record_no_resp (lit "P")]
                     (Accs [] [])))
     = [].
Proof.
  destruct (eliminate_turn_examples str_of_atom) as (H1 & H2 & _).
  split.
  - apply H1; discriminate.
  - apply (H2 _ [(lit "prompt", PyStr (lit "P"))] (Accs [] []));
      reflexivity.
Defined.


Lemma load_games_jsonl_witness :
  load_games Json.loads (one_file (lit "game.json") jsonl_file)
             (lit "game.json")
  = Ok (mappings jsonl_tagged)
  /\ length (mappings jsonl_tagged) = count_mappings jsonl_tagged.
Proof.
  apply (@load_games_jsonl Json.loads (one_file (lit "game.json") jsonl_file)
           (lit "game.json") jsonl_file jsonl_tagged).
  - reflexivity.
  - vm_compute. reflexivity.
  - vm_compute. reflexivity.
  - intros d H. vm_compute in H. discriminate.
  - vm_compute. reflexivity.
  - unfold jsonl_tagged.
    apply Forall_cons;
      [split; [vm_compute; discriminate | vm_compute; reflexivity] |].
    apply Forall_cons; [left; reflexivity |].
    apply Forall_cons; [right; left; vm_compute; reflexivity |].
    apply Forall_cons;
      [split; [vm_compute; discriminate | vm_compute; reflexivity] |].
    apply Forall_cons;
      [right; right; exists (PyInt 42); split; vm_compute; reflexivity |].
    apply Forall_nil.
Defined.

Lemma load_games_blank_witness :
  load_games Json.loads (one_file (lit "game.json") blank_file)
             (lit "game.json")
  = Ok [].
Proof.
  apply (@load_games_blank Json.loads (one_file (lit "game.json") blank_file)
           (lit "game.json") blank_file); reflexivity.
Defined.

Lemma extracted_in_order_witness :
  two_games_werewolf = flat_map (game_werewolf str_of_atom) two_games
  /\ two_games_villager
     = flat_map
         (fun game =>
            flat_map (fun round_actions =>
                        flat_map (entry_villager str_of_atom)
                                 (round_entries round_actions))
                     (game_rounds game))
         two_games.
Proof.
  apply (@extracted_in_order str_of_atom two_games).
  vm_compute. reflexivity.
Defined.

Lemma non_mapping_entry_raises_witness :
  unpack2 (PyList [PyStr (lit "Bob"); PyInt 3])
  = Ok (PyStr (lit "Bob"), PyInt 3)
  /\ extracted str_of_atom [bid_record (PyStr (lit "Bob")) (PyInt 3)]
     = Raise AttributeError.
Proof.
  destruct (non_mapping_entry_raises str_of_atom) as (_ & H).
  apply H. reflexivity.
Defined.

(** ** More on the driver *)

(** X17: the driver opens the files named as logs and no other: two file
    systems that agree on every path made of the directory and a name that
    ends in [.json], whatever its case, give the same result. *)
Theorem process_logs_reads_logs_only
        (json_loads : str -> result value) (py_str : value -> str)
        (read1 read2 : str -> result str)
        (listdir : str -> result (list str))
        (path_join : str -> str -> str) (str_lower : str -> str)
        (logs_dir : str) :
  (forall fn, json_named str_lower fn = true ->
              read1 (path_join logs_dir fn) = read2 (path_join logs_dir fn)) ->
  process_logs json_loads py_str read1 listdir path_join str_lower logs_dir
  = process_logs json_loads py_str read2 listdir path_join str_lower logs_dir.
Proof.
  intros H. unfold process_logs. rewrite !run_lift_bind.
  destruct (listdir logs_dir) as [fns|e]; [| reflexivity].
  rewrite (for_each_ext
             (process_file json_loads py_str read1 path_join str_lower logs_dir)
             (process_file json_loads py_str read2 path_join str_lower logs_dir));
    [reflexivity |].
  intros fn st. unfold process_file.
  destruct (endswith (str_lower fn) (lit ".json")) eqn:E; [| reflexivity].
  unfold negb. cbv beta iota zeta. unfold load_games.
  rewrite (H fn E). reflexivity.
Qed.

(** ** The further properties at the samples *)

Lemma load_games_whole_document_witness :
  load_games Json.loads (one_file (lit "game.json") (txt " {'id': 1} |"))
             (lit "game.json")
  = Ok [PyDict [(lit "id", PyInt 1)]]
  /\ load_games Json.loads (one_file (lit "game.json") mixed_array)
                (lit "game.json")
     = Ok [PyInt 1; PyStr (lit "x"); PyDict [(lit "bid", PyList [])]].
Proof.
  split.
  - destruct (@load_games_whole_document Json.loads
                (one_file (lit "game.json") (txt " {'id': 1} |"))
                (lit "game.json") (txt " {'id': 1} |") eq_refl) as [H _].
    apply H. vm_compute. reflexivity.
  - destruct (@load_games_whole_document Json.loads
                (one_file (lit "game.json") mixed_array)
                (lit "game.json") mixed_array eq_refl) as [_ H].
    apply H; vm_compute; reflexivity.
Defined.

Lemma load_games_outside_array_case_witness :
  load_games Json.loads (one_file (lit "game.json") jsonl_file)
             (lit "game.json")
  <> Raise JSONDecodeError
  /\ exists games,
       load_games Json.loads (one_file (lit "game.json") jsonl_file)
                  (lit "game.json") = Ok games
       /\ Forall (fun g =>
                    isinstance_dict g = true
                    /\ (Json.loads (strip jsonl_file) = Ok g
                        \/ exists line,
                             In line (splitlines (strip jsonl_file))
                             /\ strip line <> []
                             /\ Json.loads (strip line) = Ok g))
                 games.
Proof.
  destruct (@load_games_outside_array_case Json.loads
              (one_file (lit "game.json") jsonl_file) (lit "game.json")
              jsonl_file eq_refl eq_refl) as (H1 & H2 & H3).
  split; [exact H1 |].
  destruct H3 as [games Hg].
  - vm_compute. reflexivity.
  - apply Forall_forall, forallb_forall. vm_compute. reflexivity.
  - exists games. split; [exact Hg | exact (H2 games Hg)].
Defined.

Lemma load_games_ignores_outer_whitespace_witness :
  load_games Json.loads
             (fun p => if str_eqb p (lit "plain.json")
                       then Ok (txt "{'id': 1}")
                       else Ok (blank_file ++ txt "{'id': 1}" ++ blank_file))
             (lit "padded.json")
  = load_games Json.loads
               (fun p => if str_eqb p (lit "plain.json")
                         then Ok (txt "{'id': 1}")
                         else Ok (blank_file ++ txt "{'id': 1}" ++ blank_file))
               (lit "plain.json").
Proof.
  apply (@load_games_ignores_outer_whitespace Json.loads _
           (lit "plain.json") (lit "padded.json") (txt "{'id': 1}")
           blank_file blank_file); reflexivity.
Defined.

Lemma format_conversation_inj_witness :
  lit "hi" = lit "hi" /\ lit "yo" = lit "yo".
Proof.
  apply (@format_conversation_inj str_of_atom (lit "hi") (lit "hi")
           (lit "yo") (lit "yo")).
  - left. reflexivity.
  - reflexivity.
Defined.

Lemma extracted_counts_witness :
  length two_games_werewolf <= length (filter isinstance_dict two_games)
  /\ length two_games_villager <= length (all_entries two_games).
Proof.
  apply (@extracted_counts str_of_atom two_games).
  vm_compute. reflexivity.
Defined.

Lemma extracted_no_bid_witness :
  extracted str_of_atom odd_eliminate_games
  = Ok (flat_map (werewolf_of str_of_atom) odd_eliminate_games, []).
Proof.
  apply (@extracted_no_bid str_of_atom odd_eliminate_games).
  intros d [H | [H | [H | [H | []]]]];
    try discriminate H; injection H as <-; reflexivity.
Defined.

Lemma extract_exceptions_witness :
  TypeError = AttributeError \/ TypeError = TypeError
  \/ TypeError = ValueError.
Proof.
  apply (@extract_exceptions str_of_atom [null_bid_record] (Accs [] [])).
  vm_compute. reflexivity.
Defined.

Lemma extracted_model_games_witness :
  exists w v, extracted str_of_atom two_games = Ok (w, v).
Proof.
  apply (@extracted_model_games str_of_atom two_games).
  vm_compute. reflexivity.
Defined.

Lemma process_logs_concat_witness :
  process_logs Json.loads str_of_atom logs_files logs_listing logs_join
               ascii_lower (lit "logs")
  = extracted str_of_atom
      (flat_map (loaded Json.loads logs_files logs_join ascii_lower
                        (lit "logs"))
                [lit "a.json"; lit "notes.txt"; lit "b.JSON"]).
Proof.
  apply (@process_logs_concat Json.loads str_of_atom logs_files logs_listing
           logs_join ascii_lower (lit "logs")).
  - reflexivity.
  - apply Forall_cons; [intros _; eexists; vm_compute; reflexivity |].
    apply Forall_cons; [intros H; vm_compute in H; discriminate |].
    apply Forall_cons; [intros _; eexists; vm_compute; reflexivity |].
    apply Forall_nil.
Defined.

Lemma process_logs_all_loaded_witness :
  exists fns,
    logs_listing (lit "logs") = Ok fns
    /\ Forall (fun fn =>
                 json_named ascii_lower fn = true ->
                 exists games,
                   load_games Json.loads logs_files (logs_join (lit "logs") fn)
                   = Ok games)
              fns.
Proof.
  eapply (@process_logs_all_loaded Json.loads str_of_atom logs_files
            logs_listing logs_join ascii_lower (lit "logs")).
  vm_compute. reflexivity.
Defined.

Lemma process_logs_reads_logs_only_witness :
  process_logs Json.loads str_of_atom logs_files logs_listing logs_join
               ascii_lower (lit "logs")
  = process_logs Json.loads str_of_atom logs_files_only logs_listing
                 logs_join ascii_lower (lit "logs").
Proof.
  apply process_logs_reads_logs_only.
  intros fn H. unfold logs_files_only.
  destruct (str_eqb (logs_join (lit "logs") fn) (lit "logs/notes.txt")) eqn:E;
    [| reflexivity].
  apply str_eqb_eq in E.
  change (lit "logs/notes.txt") with (lit "logs/" ++ lit "notes.txt") in E.
  change (logs_join (lit "logs") fn) with (lit "logs/" ++ fn) in E.
  apply app_inv_head in E. subst fn. vm_compute in H. discriminate H.
Defined.
